(** * Braiins OS firmware updater (braiins-os/updater/update.py)

    A shallow embedding of the updater script: the per-host upgrade
    [update_one], the batch loop and host loading of [main], and the argument
    parser's defaults.  The script is effectful (printing, prompting, reading
    the batch file, remote commands), so it is embedded in a small monad that
    reads the history of the run so far, emits the events of the call and
    either returns a value or raises a Python exception.  The replies of the
    outside world (operator, file system, remote hosts) come from an
    environment that may answer differently each time it is asked.  A second
    embedding, [Interruptible], is the same script in a world where the
    operator may also interrupt any call and the prompt may find the input
    closed. *)

From Stdlib Require Import ZArith List String Ascii Bool Lia DecimalString.
Import ListNotations.
Local Open Scope string_scope.
Local Open Scope Z_scope.

(** ** Python values *)

(** A host handed to [update_one] is a [str]; it is [None] only when the
    positional hostname was left out (see [main]). *)
Definition host := option string.

(** ['%s' % host] *)
Definition str_host (h : host) : string :=
  match h with
  | Some s => s
  | None => "None"
  end.

(** Truth value of a [str]: only the empty string is false. *)
Definition truthy (s : string) : bool := negb (String.eqb s "").

(** [a or b] on strings. *)
Definition py_or (a b : string) : string := if truthy a then a else b.

(** ['%d' % n] *)
Definition str_int (n : Z) : string := NilZero.string_of_int (Z.to_int n).

(** [signal.SIGHUP] *)
Definition SIGHUP : Z := 1.

(** [USERNAME = 'root'] *)
Definition USERNAME : string := "root".

(** ** Exceptions

    [sys.exit] raises [SystemExit], which like [KeyboardInterrupt] derives from
    [BaseException] only; [CalledProcessError] derives from [Exception]
    (through [SubprocessError]), and so does every other error the script can
    meet ([OSError], [IndexError], [csv.Error], paramiko's exceptions).  Each
    exception carries the text [str(ex)] gives. *)

Inductive exit_arg :=
| ExitCode (n : Z)
| ExitMsg (s : string).

Inductive exn :=
| CalledProcessError (returncode : Z) (stdout stderr : string) (msg : string)
| OtherException (msg : string)
| KeyboardInterrupt
| SystemExit (arg : exit_arg).

Definition isinstance_Exception (ex : exn) : bool :=
  match ex with
  | CalledProcessError _ _ _ _ | OtherException _ => true
  | KeyboardInterrupt | SystemExit _ => false
  end.

Definition isinstance_CalledProcessError (ex : exn) : bool :=
  match ex with
  | CalledProcessError _ _ _ _ => true
  | _ => false
  end.

Definition isinstance_KeyboardInterrupt (ex : exn) : bool :=
  match ex with
  | KeyboardInterrupt => true
  | _ => false
  end.

(** [str(ex)] *)
Definition str_exn (ex : exn) : string :=
  match ex with
  | CalledProcessError _ _ _ msg => msg
  | OtherException msg => msg
  | KeyboardInterrupt => ""
  | SystemExit (ExitCode n) => str_int n
  | SystemExit (ExitMsg s) => s
  end.

(** [ex.returncode], [ex.stdout.read()], [ex.stderr.read()] of a
    [CalledProcessError]. *)
Definition exn_returncode (ex : exn) : Z :=
  match ex with
  | CalledProcessError rc _ _ _ => rc
  | _ => 0
  end.

Definition exn_stdout (ex : exn) : string :=
  match ex with
  | CalledProcessError _ out _ _ => out
  | _ => ""
  end.

Definition exn_stderr (ex : exn) : string :=
  match ex with
  | CalledProcessError _ _ err _ => err
  | _ => ""
  end.

(** ** The outside world *)

(** What a connection attempt and a remote command can answer. *)
Inductive connect_response :=
| Connected
| ConnectError (msg : string).

Inductive run_response :=
| RunOk (stdout stderr : string)
| RunCalledProcessError (returncode : Z) (stdout stderr : string) (msg : string)
| RunError (msg : string).

(** What opening and reading the batch file can answer: the text of the file,
    or the text of the [OSError]. *)
Inductive open_response :=
| FileText (text : string)
| OpenError (msg : string).

(** Events of a run, each with the reply it got. *)
Inductive event :=
| Print (line : string)
| Getpass (prompt reply : string)
| Open (path : string) (r : open_response)
| Connect (h : host) (username password : string) (r : connect_response)
| Run (h : host) (cmd : string) (r : run_response)
| Sleep (seconds : Z)
| Close (h : host).

Definition trace := list event.

(** The environment answers from the history of the run, so the same host may
    behave differently on a second attempt. *)
Record env := {
  getpass_reply : trace -> string -> string;
  open_file : trace -> string -> open_response;
  ssh_connect : trace -> host -> string -> string -> connect_response;
  ssh_run : trace -> host -> string -> run_response
}.

(** ** The monad of the script *)

Inductive outcome (A : Type) :=
| Ok (a : A)
| Raise (ex : exn).

Arguments Ok {A} a.
Arguments Raise {A} ex.

(** A computation reads the history so far and gives the events it emits and
    its outcome. *)
Definition M (A : Type) : Type := trace -> trace * outcome A.

Definition ret {A} (a : A) : M A := fun _ => ([], Ok a).

Definition raise {A} (ex : exn) : M A := fun _ => ([], Raise ex).

Definition bind {A B} (m : M A) (k : A -> M B) : M B :=
  fun hist =>
    let (d1, r) := m hist in
    match r with
    | Ok a => let (d2, r2) := k a (hist ++ d1)%list in ((d1 ++ d2)%list, r2)
    | Raise ex => (d1, Raise ex)
    end.

Notation "x <- m ;; k" := (bind m (fun x => k))
  (at level 61, m at next level, right associativity).
Notation "m ;; k" := (bind m (fun _ => k))
  (at level 61, right associativity).

Definition emit (e : event) : M unit := fun _ => ([e], Ok tt).

(** [print(line)] *)
Definition print (line : string) : M unit := emit (Print line).

(** [time.sleep(seconds)] *)
Definition sleep (seconds : Z) : M unit := emit (Sleep seconds).

(** [sys.exit(arg)] *)
Definition sys_exit {A} (arg : exit_arg) : M A := raise (SystemExit arg).

(** An [except] clause: the class test and the handler. *)
Definition clause (A : Type) : Type := (exn -> bool) * (exn -> M A).

(** The first clause whose class matches handles the exception; later
    clauses are not looked at. *)
Fixpoint dispatch {A} (clauses : list (clause A)) (ex : exn) : M A :=
  match clauses with
  | [] => raise ex
  | (is_class, handler) :: rest =>
      if is_class ex then handler ex else dispatch rest ex
  end.

(** [try: m  except C1 as ex: h1  except C2 as ex: h2 ...] *)
Definition try_except {A} (m : M A) (clauses : list (clause A)) : M A :=
  fun hist =>
    let (d1, r) := m hist in
    match r with
    | Ok a => (d1, Ok a)
    | Raise ex =>
        let (d2, r2) := dispatch clauses ex (hist ++ d1)%list in ((d1 ++ d2)%list, r2)
    end.

(** [with mgr as v: body], for a body that ends the function: [enter] is
    [mgr.__enter__()]; [exit_ v None] is called when the body completes or
    returns, [exit_ v (Some ex)] when it raises, and then the exception is
    raised again unless [exit_] answered true. *)
Definition with_stmt {S} (enter : M S) (exit_ : S -> option exn -> M bool)
    (body : S -> M unit) : M unit :=
  v <- enter ;;
  fun hist =>
    let (d1, r) := body v hist in
    match r with
    | Ok _ =>
        let (d2, r2) := exit_ v None (hist ++ d1)%list in
        ((d1 ++ d2)%list, match r2 with Ok _ => Ok tt | Raise ex => Raise ex end)
    | Raise ex =>
        let (d2, r2) := exit_ v (Some ex) (hist ++ d1)%list in
        ((d1 ++ d2)%list,
         match r2 with
         | Ok suppress => if suppress then Ok tt else Raise ex
         | Raise ex2 => Raise ex2
         end)
    end.

(** ** The remote session (upgrade.ssh.SSHManager) *)

Module SSHManager.
Section Session.
Variable E : env.

(** Modelled from the spec: module upgrade/ssh.py is missing.
    [connect(host, user, password) -> Session | raises ConnectionError]:
    acquiring the session ([SSHManager(...)] and its [__enter__]) asks the
    host to connect and raises when it cannot.  The session is identified
    by its host. *)
Definition enter (h : host) (username password : string) : M host :=
  fun hist =>
    let r := ssh_connect E hist h username password in
    ([Connect h username password r],
     match r with
     | Connected => Ok h
     | ConnectError msg => Raise (OtherException msg)
     end).

(** Modelled from the spec: module upgrade/ssh.py is missing.
    [Session.run(command) -> (stdout, stderr) | raises CommandError{exit_code}]:
    a non-zero exit raises [CalledProcessError] with the exit status and the
    captured output; a transport error raises another exception. *)
Definition result_of (r : run_response) : outcome (string * string) :=
  match r with
  | RunOk out err => Ok (out, err)
  | RunCalledProcessError rc out err msg =>
      Raise (CalledProcessError rc out err msg)
  | RunError msg => Raise (OtherException msg)
  end.

Definition run (ssh : host) (cmd : string) : M (string * string) :=
  fun hist =>
    let r := ssh_run E hist ssh cmd in
    ([Run ssh cmd r], result_of r).

(** Modelled from the spec: module upgrade/ssh.py is missing.
    [Session.close()], the guaranteed release of the scoped session:
    [__exit__] closes the session and does not swallow the exception. *)
Definition exit_ (ssh : host) (_ : option exn) : M bool :=
  emit (Close ssh) ;; ret false.
End Session.
End SSHManager.

(** ** update_one *)

Section Updater.
Variable E : env.

Definition update_one (h : host) (password : string) : M unit :=
  print ("Updating " ++ str_host h ++ "...") ;;
  with_stmt (SSHManager.enter E h USERNAME password) SSHManager.exit_
    (fun ssh =>
       _ <- SSHManager.run E ssh "opkg update" ;;
       sleep 1 ;;  (* opkg may hold lock for a while *)
       try_except
         (_ <- SSHManager.run E ssh "opkg install firmware" ;; ret tt)
         [ (isinstance_CalledProcessError,
            fun ex =>
              if exn_returncode ex =? - SIGHUP then
                (* if all goes well update process reboots which kills
                   ssh server *)
                ret tt
              else raise ex) ]).

End Updater.

(** ** Reading the batch file *)

(** Iterating over a file opened in text mode: the lines with their ends, every
    line end ([\r\n], [\r] or [\n]) read as [\n]. *)
Module io.
Definition LF : ascii := ascii_of_nat 10.
Definition CR : ascii := ascii_of_nat 13.

Fixpoint lines_from (text cur : string) : list string :=
  match text with
  | EmptyString => if truthy cur then [cur] else []
  | String c rest =>
      if Ascii.eqb c CR then
        match rest with
        | String c' _ =>
            if Ascii.eqb c' LF then lines_from rest cur
            else (cur ++ String LF "") :: lines_from rest ""
        | EmptyString => (cur ++ String LF "") :: lines_from rest ""
        end
      else if Ascii.eqb c LF then (cur ++ String LF "") :: lines_from rest ""
      else lines_from rest (cur ++ String c "")
  end.

Definition readlines (text : string) : list string := lines_from text "".
End io.

(** [csv.reader] with the default dialect (comma as delimiter, the
    double quote as quote character, doubled inside a quoted field, not
    strict, no escape character), after the parser
    of CPython's [_csv] module. *)
Module csv.
Inductive parser_state :=
| START_RECORD
| START_FIELD
| IN_FIELD
| IN_QUOTED_FIELD
| QUOTE_IN_QUOTED_FIELD
| EAT_CRNL.

Record reader := {
  state : parser_state;
  fields : list string;
  field : string
}.

Definition delimiter : ascii := ascii_of_nat 44.
Definition quotechar : ascii := ascii_of_nat 34.
Definition field_limit : Z := 131072.

Definition is_newline (c : ascii) : bool :=
  Ascii.eqb c io.LF || Ascii.eqb c io.CR.

Definition parse_reset : reader :=
  {| state := START_RECORD; fields := []; field := "" |}.

Definition set_state (r : reader) (s : parser_state) : reader :=
  {| state := s; fields := fields r; field := field r |}.

Definition parse_save_field (r : reader) : reader :=
  {| state := state r; fields := (fields r ++ [field r])%list; field := "" |}.

(** A reader, or the text of the [csv.Error]. *)
Definition parse_add_char (r : reader) (c : ascii) : string + reader :=
  if field_limit <=? Z.of_nat (String.length (field r)) then
    inl "field larger than field limit (131072)"
  else
    inr {| state := state r; fields := fields r;
           field := field r ++ String c "" |}.

Definition add_then (r : reader) (c : ascii) (s : parser_state)
    : string + reader :=
  match parse_add_char r c with
  | inr r' => inr (set_state r' s)
  | inl err => inl err
  end.

(** One character of a line; [None] is the mark after its last character. *)
Definition parse_start_field (r : reader) (c : option ascii)
    : string + reader :=
  match c with
  | None => inr (set_state (parse_save_field r) START_RECORD)
  | Some ch =>
      if is_newline ch then inr (set_state (parse_save_field r) EAT_CRNL)
      else if Ascii.eqb ch quotechar then inr (set_state r IN_QUOTED_FIELD)
      else if Ascii.eqb ch delimiter then inr (parse_save_field r)
      else add_then r ch IN_FIELD
  end.

Definition parse_process_char (r : reader) (c : option ascii)
    : string + reader :=
  match state r with
  | START_RECORD =>
      match c with
      | None => inr r
      | Some ch =>
          if is_newline ch then inr (set_state r EAT_CRNL)
          else parse_start_field (set_state r START_FIELD) c
      end
  | START_FIELD => parse_start_field r c
  | IN_FIELD =>
      match c with
      | None => inr (set_state (parse_save_field r) START_RECORD)
      | Some ch =>
          if is_newline ch then inr (set_state (parse_save_field r) EAT_CRNL)
          else if Ascii.eqb ch delimiter then
            inr (set_state (parse_save_field r) START_FIELD)
          else add_then r ch IN_FIELD
      end
  | IN_QUOTED_FIELD =>
      match c with
      | None => inr r
      | Some ch =>
          if Ascii.eqb ch quotechar then inr (set_state r QUOTE_IN_QUOTED_FIELD)
          else add_then r ch IN_QUOTED_FIELD
      end
  | QUOTE_IN_QUOTED_FIELD =>
      match c with
      | None => inr (set_state (parse_save_field r) START_RECORD)
      | Some ch =>
          if Ascii.eqb ch quotechar then add_then r ch IN_QUOTED_FIELD
          else if Ascii.eqb ch delimiter then
            inr (set_state (parse_save_field r) START_FIELD)
          else if is_newline ch then
            inr (set_state (parse_save_field r) EAT_CRNL)
          else add_then r ch IN_FIELD
      end
  | EAT_CRNL =>
      match c with
      | None => inr (set_state r START_RECORD)
      | Some ch =>
          if is_newline ch then inr r
          else inl "new-line character seen in unquoted field - do you need to open the file in universal-newline mode?"
      end
  end.

Fixpoint parse_line (r : reader) (line : string) : string + reader :=
  match line with
  | EmptyString => parse_process_char r None
  | String c rest =>
      match parse_process_char r (Some c) with
      | inr r' => parse_line r' rest
      | inl err => inl err
      end
  end.

(** The rows the reader yields over the lines, in order, and the error that
    ends the iteration early, if any.  A record ends with the line on which
    the parser is back at the start of a record; at the end of the input a
    started record is still yielded. *)
Fixpoint rows_from (r : reader) (lines : list string)
    : list (list string) * option string :=
  match lines with
  | [] =>
      if truthy (field r)
         || match state r with IN_QUOTED_FIELD => true | _ => false end
      then ([fields (parse_save_field r)], None)
      else ([], None)
  | line :: rest =>
      match parse_line r line with
      | inl err => ([], Some err)
      | inr r' =>
          match state r' with
          | START_RECORD =>
              let (rows, err) := rows_from parse_reset rest in
              (fields r' :: rows, err)
          | _ => rows_from r' rest
          end
      end
  end.

Definition reader_rows (lines : list string)
    : list (list string) * option string :=
  rows_from parse_reset lines.
End csv.

(** [[row[0] for row in rows]], the rows taken one at a time: an empty row
    raises [IndexError], and an error of the reader is met after the rows it
    yielded. *)
Fixpoint first_fields (rows : list (list string)) (err : option string)
    : outcome (list host) :=
  match rows with
  | [] =>
      match err with
      | None => Ok []
      | Some msg => Raise (OtherException msg)
      end
  | [] :: _ => Raise (OtherException "list index out of range")
  | (f :: _) :: rest =>
      match first_fields rest err with
      | Ok hosts => Ok (Some f :: hosts)
      | Raise ex => Raise ex
      end
  end.

(** Equality of hosts. *)
Definition host_eq (h h' : host) : bool :=
  match h, h' with
  | Some s, Some s' => String.eqb s s'
  | None, None => true
  | _, _ => false
  end.

(** [hosts[0] == 'host'] *)
Definition host_eqb (h : host) (s : string) : bool :=
  match h with
  | Some s' => String.eqb s' s
  | None => false
  end.

(** ** Command line *)

(** The namespace [parse_args] gives. *)
Record Namespace := {
  hostname : host;
  batch : option string;
  password : string;
  ignore : bool
}.

(** What the operator wrote: one of the two mutually exclusive sources, the
    value of [-p/--password] if the flag was given, and whether [-i/--ignore]
    was. *)
Inductive cli_source :=
| CliHostname (h : string)
| CliBatch (path : string).

Record cli := {
  cli_from : cli_source;
  cli_password : option string;
  cli_ignore : bool
}.

(** What the parser declares for the two options: the default of
    [-p/--password], and the value of [-i/--ignore] when the flag is absent
    ([store_true]). *)
Record ArgumentParser := {
  password_default : string;
  ignore_default : bool
}.

(** [parser.add_argument('-p', '--password', default='', ...)] and
    [parser.add_argument('-i', '--ignore', action='store_true', ...)] *)
Definition build_arg_parser : ArgumentParser :=
  {| password_default := ""; ignore_default := false |}.

(** [parser.parse_args()]: the source that was not given is [None], an option
    that was not given has its default. *)
Definition parse_args (parser : ArgumentParser) (c : cli) : Namespace :=
  {| hostname :=
       match cli_from c with
       | CliHostname h => Some h
       | CliBatch _ => None
       end;
     batch :=
       match cli_from c with
       | CliBatch p => Some p
       | CliHostname _ => None
       end;
     password :=
       match cli_password c with
       | Some p => p
       | None => password_default parser
       end;
     ignore := if cli_ignore c then true else ignore_default parser |}.

(** ** main *)

Section Main.
Variable E : env.

(** [getpass(prompt)] *)
Definition getpass (prompt : string) : M string :=
  fun hist =>
    let reply := getpass_reply E hist prompt in
    ([Getpass prompt reply], Ok reply).

(** [[row[0] for row in csv.reader(open(path))]] *)
Definition read_hosts (path : string) : M (list host) :=
  fun hist =>
    let r := open_file E hist path in
    ([Open path r],
     match r with
     | OpenError msg => Raise (OtherException msg)
     | FileText text =>
         let (rows, err) := csv.reader_rows (io.readlines text) in
         first_fields rows err
     end).

(** Lines 24-40 of [main]: the password and the hosts of the run. *)
Definition load (args : Namespace) : M (string * list host) :=
  match batch args with
  | Some path =>
      if truthy path then
        (* ssh wrapper may ask for password based on it's own logic, we
           just provide default *)
        password <-
          (if truthy (password args) then ret (password args)
           else reply <- getpass "Default password: " ;; ret (py_or reply "")) ;;
        hosts <-
          try_except (read_hosts path)
            [ (isinstance_Exception,
               fun ex =>
                 sys_exit (ExitMsg ("Invalid input file: " ++ path ++ " ("
                                    ++ str_exn ex ++ ")"))) ] ;;
        let hosts :=
          match hosts with
          | h :: rest =>
              (* possibly skip csv header row *)
              if host_eqb h "host" then rest else hosts
          | [] => hosts
          end in
        ret (password, hosts)
      else ret (py_or (password args) "", [hostname args])
  | None => ret (py_or (password args) "", [hostname args])
  end.

(** Lines 44-57: the body of the loop over the hosts, giving the new value
    of [error_count]. *)
Definition attempt (args : Namespace) (password : string) (h : host)
    (error_count : Z) : M Z :=
  try_except (update_one E h password ;; ret error_count)
    [ (isinstance_Exception,
       fun ex =>
         let error_count := error_count + 1 in
         print ("Updating " ++ str_host h ++ " failed (" ++ str_exn ex ++ ")") ;;
         if negb (ignore args) then sys_exit (ExitCode 2)
         else ret error_count);
      (isinstance_CalledProcessError,
       fun ex =>
         let error_count := error_count + 1 in
         print (exn_stdout ex) ;;
         print (exn_stderr ex) ;;
         print ("Updating " ++ str_host h ++ " failed ("
                ++ str_int (exn_returncode ex) ++ ")") ;;
         if negb (ignore args) then sys_exit (ExitCode 3)
         else ret error_count) ].

(** Lines 43-57: [for host in hosts: ...] *)
Fixpoint for_hosts (args : Namespace) (password : string)
    (hosts : list host) (error_count : Z) : M Z :=
  match hosts with
  | [] => ret error_count
  | h :: rest =>
      error_count <- attempt args password h error_count ;;
      for_hosts args password rest error_count
  end.

Definition main (args : Namespace) : M unit :=
  st <- load args ;;
  let (password, hosts) := st : string * list host in
  error_count <- for_hosts args password hosts 0 ;;
  if negb (error_count =? 0) then
    sys_exit (ExitMsg (str_int error_count ++ " errors encountered"))
  else ret tt.

(** Lines 94-103: the script itself. *)
Definition script (c : cli) : M unit :=
  try_except (main (parse_args build_arg_parser c))
    [ (isinstance_KeyboardInterrupt, fun _ => sys_exit (ExitCode 1));
      (isinstance_Exception,
       fun ex => sys_exit (ExitMsg ("error: " ++ str_exn ex))) ].
End Main.

(** The exit code of the process: 0 when the script ends, the code given to
    [sys.exit], and 1 when [sys.exit] got a message (printed on stderr) or an
    exception was left uncaught. *)
Definition exit_code (r : outcome unit) : Z :=
  match r with
  | Ok _ => 0
  | Raise (SystemExit (ExitCode n)) => n
  | Raise _ => 1
  end.

(** ** The operator at the keyboard

    The script above runs in a world where nobody touches the keyboard.  The
    operator may also interrupt the run (Ctrl-C raises [KeyboardInterrupt]
    in whatever call is under way), and the prompt may find the input closed
    ([getpass] raises [EOFError]).  A [world] adds both to an environment,
    again as functions of the history of the run. *)

Record world := {
  replies : env;
  operator_interrupts : trace -> bool;
  end_of_input : trace -> bool
}.

(** The world of an environment that the operator leaves alone. *)
Definition undisturbed (E : env) : world :=
  {| replies := E;
     operator_interrupts := fun _ => false;
     end_of_input := fun _ => false |}.

(** The same script, every call of which the operator may interrupt.  An
    interrupted call gets no reply and so leaves no event. *)
Module Interruptible.
Section Script.
Variable W : world.

Definition interruptible {A} (m : M A) : M A :=
  fun hist =>
    if operator_interrupts W hist then ([], Raise KeyboardInterrupt)
    else m hist.

(** [print(line)] *)
Definition print (line : string) : M unit :=
  interruptible (emit (Print line)).

(** [time.sleep(seconds)] *)
Definition sleep (seconds : Z) : M unit :=
  interruptible (emit (Sleep seconds)).

(** [getpass(prompt)]; [str(EOFError())] is empty. *)
Definition getpass (prompt : string) : M string :=
  interruptible
    (fun hist =>
       if end_of_input W hist then ([], Raise (OtherException ""))
       else
         let reply := getpass_reply (replies W) hist prompt in
         ([Getpass prompt reply], Ok reply)).

(** [[row[0] for row in csv.reader(open(path))]] *)
Definition read_hosts (path : string) : M (list host) :=
  interruptible (read_hosts (replies W) path).

(** Modelled from the spec: module upgrade/ssh.py is missing.
    [connect(host, user, password) -> Session | raises ConnectionError],
    which the operator may interrupt; no session is acquired then. *)
Definition enter (h : host) (username password : string) : M host :=
  interruptible (SSHManager.enter (replies W) h username password).

(** Modelled from the spec: module upgrade/ssh.py is missing.
    [Session.run(command) -> (stdout, stderr) | raises CommandError{exit_code}],
    which the operator may interrupt.  The release of the session is
    [SSHManager.exit_], guaranteed as the spec has it. *)
Definition run (ssh : host) (cmd : string) : M (string * string) :=
  interruptible (SSHManager.run (replies W) ssh cmd).

Definition update_one (h : host) (password : string) : M unit :=
  print ("Updating " ++ str_host h ++ "...") ;;
  with_stmt (enter h USERNAME password) SSHManager.exit_
    (fun ssh =>
       _ <- run ssh "opkg update" ;;
       sleep 1 ;;  (* opkg may hold lock for a while *)
       try_except
         (_ <- run ssh "opkg install firmware" ;; ret tt)
         [ (isinstance_CalledProcessError,
            fun ex =>
              if exn_returncode ex =? - SIGHUP then
                (* if all goes well update process reboots which kills
                   ssh server *)
                ret tt
              else raise ex) ]).

(** Lines 24-40 of [main]: the password and the hosts of the run. *)
Definition load (args : Namespace) : M (string * list host) :=
  match batch args with
  | Some path =>
      if truthy path then
        password <-
          (if truthy (password args) then ret (password args)
           else reply <- getpass "Default password: " ;; ret (py_or reply "")) ;;
        hosts <-
          try_except (read_hosts path)
            [ (isinstance_Exception,
               fun ex =>
                 sys_exit (ExitMsg ("Invalid input file: " ++ path ++ " ("
                                    ++ str_exn ex ++ ")"))) ] ;;
        let hosts :=
          match hosts with
          | h :: rest =>
              (* possibly skip csv header row *)
              if host_eqb h "host" then rest else hosts
          | [] => hosts
          end in
        ret (password, hosts)
      else ret (py_or (password args) "", [hostname args])
  | None => ret (py_or (password args) "", [hostname args])
  end.

(** Lines 44-57: the body of the loop over the hosts. *)
Definition attempt (args : Namespace) (password : string) (h : host)
    (error_count : Z) : M Z :=
  try_except (update_one h password ;; ret error_count)
    [ (isinstance_Exception,
       fun ex =>
         let error_count := error_count + 1 in
         print ("Updating " ++ str_host h ++ " failed (" ++ str_exn ex ++ ")") ;;
         if negb (ignore args) then sys_exit (ExitCode 2)
         else ret error_count);
      (isinstance_CalledProcessError,
       fun ex =>
         let error_count := error_count + 1 in
         print (exn_stdout ex) ;;
         print (exn_stderr ex) ;;
         print ("Updating " ++ str_host h ++ " failed ("
                ++ str_int (exn_returncode ex) ++ ")") ;;
         if negb (ignore args) then sys_exit (ExitCode 3)
         else ret error_count) ].

(** Lines 43-57: [for host in hosts: ...] *)
Fixpoint for_hosts (args : Namespace) (password : string)
    (hosts : list host) (error_count : Z) : M Z :=
  match hosts with
  | [] => ret error_count
  | h :: rest =>
      error_count <- attempt args password h error_count ;;
      for_hosts args password rest error_count
  end.

Definition main (args : Namespace) : M unit :=
  st <- load args ;;
  let (password, hosts) := st : string * list host in
  error_count <- for_hosts args password hosts 0 ;;
  if negb (error_count =? 0) then
    sys_exit (ExitMsg (str_int error_count ++ " errors encountered"))
  else ret tt.

(** Lines 94-103: the script itself. *)
Definition script (c : cli) : M unit :=
  try_except (main (parse_args build_arg_parser c))
    [ (isinstance_KeyboardInterrupt, fun _ => sys_exit (ExitCode 1));
      (isinstance_Exception,
       fun ex => sys_exit (ExitMsg ("error: " ++ str_exn ex))) ].
End Script.
End Interruptible.

(** ** What a run shows *)

(** The hosts an upgrade was attempted on, in order: each call of
    [update_one] asks its host for a session once. *)
Definition attempted (d : trace) : list host :=
  flat_map (fun e => match e with Connect h _ _ _ => [h] | _ => [] end) d.

Fixpoint remove_first (h : host) (l : list host) : list host :=
  match l with
  | [] => []
  | h' :: rest =>
      if host_eq h h' then rest else h' :: remove_first h rest
  end.

(** The sessions still open after the events [d], starting from [opened]:
    a successful connection opens one, [Close] releases it. *)
Fixpoint open_sessions (d : trace) (opened : list host) : list host :=
  match d with
  | [] => opened
  | Connect h _ _ Connected :: rest => open_sessions rest (h :: opened)
  | Close h :: rest => open_sessions rest (remove_first h opened)
  | _ :: rest => open_sessions rest opened
  end.

(** The behaviours of one call of [update_one]: the events it emits and how it
    ends. *)
Inductive update_one_run (h : host) (pw : string) : trace -> outcome unit -> Prop :=
| run_no_session msg :
    update_one_run h pw
      [Print ("Updating " ++ str_host h ++ "...");
       Connect h USERNAME pw (ConnectError msg)]
      (Raise (OtherException msg))
| run_refresh_raised r ex :
    SSHManager.result_of r = Raise ex ->
    update_one_run h pw
      [Print ("Updating " ++ str_host h ++ "...");
       Connect h USERNAME pw Connected;
       Run h "opkg update" r;
       Close h]
      (Raise ex)
| run_installed out err out' err' :
    update_one_run h pw
      [Print ("Updating " ++ str_host h ++ "...");
       Connect h USERNAME pw Connected;
       Run h "opkg update" (RunOk out err);
       Sleep 1;
       Run h "opkg install firmware" (RunOk out' err');
       Close h]
      (Ok tt)
| run_hangup out err out' err' msg :
    update_one_run h pw
      [Print ("Updating " ++ str_host h ++ "...");
       Connect h USERNAME pw Connected;
       Run h "opkg update" (RunOk out err);
       Sleep 1;
       Run h "opkg install firmware"
         (RunCalledProcessError (- SIGHUP) out' err' msg);
       Close h]
      (Ok tt)
| run_install_failed out err rc out' err' msg :
    rc <> - SIGHUP ->
    update_one_run h pw
      [Print ("Updating " ++ str_host h ++ "...");
       Connect h USERNAME pw Connected;
       Run h "opkg update" (RunOk out err);
       Sleep 1;
       Run h "opkg install firmware" (RunCalledProcessError rc out' err' msg);
       Close h]
      (Raise (CalledProcessError rc out' err' msg))
| run_install_error out err msg :
    update_one_run h pw
      [Print ("Updating " ++ str_host h ++ "...");
       Connect h USERNAME pw Connected;
       Run h "opkg update" (RunOk out err);
       Sleep 1;
       Run h "opkg install firmware" (RunError msg);
       Close h]
      (Raise (OtherException msg)).

(** Whether a run ended on an exception that the script itself handles. *)
Definition handled_by_script (r : outcome unit) : bool :=
  match r with
  | Ok _ => false
  | Raise ex => isinstance_KeyboardInterrupt ex || isinstance_Exception ex
  end.

(** Events that neither print nor reach a host. *)
Definition quiet (d : trace) : Prop :=
  Forall (fun e => match e with
                   | Getpass _ _ | Open _ _ => True
                   | _ => False
                   end) d.

(** A batch run over [hosts]: loading gives them as the hosts of the run, and
    the attempts of the run are these hosts in order, all of them unless
    halt-on-error stops the run with exit code 2 right after the attempt on
    one of them. *)
Definition batch_run (E : env) (args : Namespace) (hist : trace)
    (hosts : list host) : Prop :=
  (exists pw, snd (load E args hist) = Ok (pw, hosts)) /\
  (ignore args = true -> attempted (fst (main E args hist)) = hosts) /\
  (attempted (fst (main E args hist)) = hosts \/
   (ignore args = false /\
    snd (main E args hist) = Raise (SystemExit (ExitCode 2)) /\
    exists pre h post,
      hosts = (pre ++ h :: post)%list /\
      attempted (fst (main E args hist)) = (pre ++ [h])%list)).

(** ** Example worlds *)

(** A world whose hosts all accept connections, with the batch file [file] and
    the operator typing [secret] at the prompt; [answer] gives what a host
    answers to a command. *)
Definition fleet (file : string) (answer : host -> string -> run_response)
    : env :=
  {| getpass_reply := fun _ _ => "secret";
     open_file := fun _ _ => FileText file;
     ssh_connect := fun _ _ _ _ => Connected;
     ssh_run := fun _ h cmd => answer h cmd |}.

(** Every host refreshes, installs and reboots, which hangs up the install
    command. *)
Definition reboots (_ : host) (cmd : string) : run_response :=
  if String.eqb cmd "opkg update" then RunOk "Updated list of packages" ""
  else RunCalledProcessError (- SIGHUP) "Upgrading firmware" "" "hangup".

(** Host [bad] fails to install with exit status 1; the others reboot. *)
Definition install_fails_on (bad : string) (h : host) (cmd : string)
    : run_response :=
  if host_eqb h bad && String.eqb cmd "opkg install firmware" then
    RunCalledProcessError 1 "" "Unknown package 'firmware'" "exit status 1"
  else reboots h cmd.

(** Every command is hung up on, the refresh too. *)
Definition hangs_up (_ : host) (_ : string) : run_response :=
  RunCalledProcessError (- SIGHUP) "" "" "hangup".

(** Host [bad] fails to refresh with exit status 1; the others reboot. *)
Definition refresh_fails_on (bad : string) (h : host) (cmd : string)
    : run_response :=
  if host_eqb h bad && String.eqb cmd "opkg update" then
    RunCalledProcessError 1 "" "Failed to download the package list"
      "exit status 1"
  else reboots h cmd.

(** The command line [--batch path], with [-p] as [po] says and [-i] as
    [ign] says. *)
Definition batch_cli (path : string) (po : option string) (ign : bool) : cli :=
  {| cli_from := CliBatch path; cli_password := po; cli_ignore := ign |}.

Definition batch_args (path pw : string) (ign : bool) : Namespace :=
  parse_args build_arg_parser (batch_cli path (Some pw) ign).

(** The command line [hostname], without [-p] or [-i]. *)
Definition single_cli (hostname : string) : cli :=
  {| cli_from := CliHostname hostname;
     cli_password := None;
     cli_ignore := false |}.

(** Whether the operator was asked for the password. *)
Definition prompted (d : trace) : bool :=
  existsb (fun e => match e with Getpass _ _ => true | _ => false end) d.

(** The batch file of scenario D: a header row, then two hosts. *)
Definition scenario_D : string := "host
dev1
dev2
".

(** A batch file with an empty line after the header. *)
Definition blank_line_file : string := "host

dev1
".

(** The lines printed on the standard output, in order. *)
Definition printed (d : trace) : list string :=
  flat_map (fun e => match e with Print line => [line] | _ => [] end) d.

(** ['Updating %s...' % host], the line [update_one] prints first. *)
Definition progress_line (h : host) : string :=
  "Updating " ++ str_host h ++ "...".

(** ['Updating %s failed (%s)' % (host, ex)], the line [main] prints for an
    upgrade that raised, [reason] being [str(ex)]. *)
Definition failure_line (h : host) (reason : string) : string :=
  "Updating " ++ str_host h ++ " failed (" ++ reason ++ ")".

(** The remote commands run, in order. *)
Definition commands (d : trace) : list string :=
  flat_map (fun e => match e with Run _ cmd _ => [cmd] | _ => [] end) d.

(** Whether an answer to the install command lets [update_one] return: the
    command returned, or it was hung up on. *)
Definition install_done (r : run_response) : bool :=
  match r with
  | RunOk _ _ => true
  | RunCalledProcessError rc _ _ _ => rc =? - SIGHUP
  | RunError _ => false
  end.

(** Events that belong to an upgrade with the password [pw]: connections as
    [USERNAME] with [pw], the two package commands, pauses of one second. *)
Definition upgrade_event (pw : string) (e : event) : Prop :=
  match e with
  | Connect _ username password _ => username = USERNAME /\ password = pw
  | Run _ cmd _ => cmd = "opkg update" \/ cmd = "opkg install firmware"
  | Sleep seconds => seconds = 1
  | _ => True
  end.

(** A world whose hosts refuse every connection. *)
Definition unreachable (file : string) : env :=
  {| getpass_reply := fun _ _ => "secret";
     open_file := fun _ _ => FileText file;
     ssh_connect := fun _ _ _ _ => ConnectError "timed out";
     ssh_run := fun _ _ _ => RunError "not connected" |}.

(** A world without the batch file. *)
Definition no_file : env :=
  {| getpass_reply := fun _ _ => "secret";
     open_file := fun _ _ => OpenError "No such file or directory";
     ssh_connect := fun _ _ _ _ => Connected;
     ssh_run := fun _ h cmd => reboots h cmd |}.

(** The connection drops during the install command of every host, without an
    exit status. *)
Definition drops_during_install (_ : host) (cmd : string) : run_response :=
  if String.eqb cmd "opkg update" then RunOk "Updated list of packages" ""
  else RunError "Connection reset by peer -SIGHUP".

(** A character that is part of a bare field: no line end, delimiter or
    quote. *)
Definition plain_char (c : ascii) : bool :=
  negb (csv.is_newline c || Ascii.eqb c csv.delimiter
        || Ascii.eqb c csv.quotechar).

Fixpoint plain_chars (s : string) : bool :=
  match s with
  | EmptyString => true
  | String c rest => plain_char c && plain_chars rest
  end.

(** A host name as one writes it alone on a line: not empty, of plain
    characters, within the field limit of the reader. *)
Definition plain_name (s : string) : bool :=
  truthy s && plain_chars s
  && (Z.of_nat (String.length s) <=? csv.field_limit).

(** The text of a file with one name per line. *)
Fixpoint one_per_line (names : list string) : string :=
  match names with
  | [] => ""
  | name :: rest => name ++ String io.LF (one_per_line rest)
  end.

(** The paths through [update_one] that the operator cuts short, by the
    events emitted: before the progress line, while connecting, and, with the
    session open, during the refresh command, the pause or the install
    command. *)
Inductive update_one_interrupted (h : host) (pw : string) : trace -> Prop :=
| interrupted_at_once :
    update_one_interrupted h pw []
| interrupted_connecting :
    update_one_interrupted h pw [Print ("Updating " ++ str_host h ++ "...")]
| interrupted_refreshing :
    update_one_interrupted h pw
      [Print ("Updating " ++ str_host h ++ "...");
       Connect h USERNAME pw Connected;
       Close h]
| interrupted_pausing out err :
    update_one_interrupted h pw
      [Print ("Updating " ++ str_host h ++ "...");
       Connect h USERNAME pw Connected;
       Run h "opkg update" (RunOk out err);
       Close h]
| interrupted_installing out err :
    update_one_interrupted h pw
      [Print ("Updating " ++ str_host h ++ "...");
       Connect h USERNAME pw Connected;
       Run h "opkg update" (RunOk out err);
       Sleep 1;
       Close h].

(** How a call of [update_one] can end: it returns, it raises an
    [Exception], or the operator interrupted it. *)
Definition ends_as_a_call (r : outcome unit) : Prop :=
  r = Ok tt \/
  (exists ex, r = Raise ex /\ isinstance_Exception ex = true) \/
  r = Raise KeyboardInterrupt.


(** The operator presses Ctrl-C during the call made after [n] events. *)
Definition ctrl_c_after (n : nat) (E : env) : world :=
  {| replies := E;
     operator_interrupts := fun hist => Nat.eqb (List.length hist) n;
     end_of_input := fun _ => false |}.


(** * Properties *)

Lemma host_eq_refl (h : host) : host_eq h h = true.
Proof.
  destruct h as [s |]; simpl; [apply String.eqb_refl | reflexivity].
Qed.

(** Runs the monad's operations as far as the replies of the world are
    known. *)
Ltac run_script :=
  cbv beta iota zeta delta
    [with_stmt try_except bind print sleep emit ret raise sys_exit dispatch
     SSHManager.enter SSHManager.run SSHManager.exit_ SSHManager.result_of
     fst snd];
  cbn [app isinstance_CalledProcessError isinstance_Exception
       isinstance_KeyboardInterrupt exn_returncode].

Section UpdateOne.
Variable E : env.

Lemma update_one_behaviour (h : host) (pw : string) (hist : trace) :
  update_one_run h pw (fst (update_one E h pw hist))
                      (snd (update_one E h pw hist)).
Proof.
  unfold update_one; run_script.
  destruct (ssh_connect E _ h USERNAME pw); run_script; [| constructor].
  destruct (ssh_run E _ h "opkg update") eqn:Hup; run_script;
    [| now apply run_refresh_raised | now apply run_refresh_raised].
  destruct (ssh_run E _ h "opkg install firmware") eqn:Hin; run_script.
  - constructor.
  - destruct (Z.eqb_spec returncode (- SIGHUP)) as [-> | Hrc]; run_script.
    + constructor.
    + now constructor.
  - constructor.
Qed.

(** [update_one] raises nothing but subclasses of [Exception]. *)
Lemma update_one_raises_Exception (h : host) (pw : string) (hist : trace)
    (ex : exn) :
  snd (update_one E h pw hist) = Raise ex -> isinstance_Exception ex = true.
Proof.
  intros Hex. pose proof (update_one_behaviour h pw hist) as Hrun.
  rewrite Hex in Hrun.
  inversion Hrun as [ | r ex' Hr | | | | ]; subst; try reflexivity.
  destruct r; simpl in Hr; inversion Hr; reflexivity.
Qed.

(** A call of [update_one] is one attempt, on its host. *)
Lemma update_one_attempted (h : host) (pw : string) (hist : trace) :
  attempted (fst (update_one E h pw hist)) = [h].
Proof.
  destruct (update_one_behaviour h pw hist); reflexivity.
Qed.

(** The body of the loop when the upgrade returns. *)
Lemma attempt_success (args : Namespace) (h : host) (pw : string)
    (error_count : Z) (hist : trace) :
  snd (update_one E h pw hist) = Ok tt ->
  attempt E args pw h error_count hist
  = (fst (update_one E h pw hist), Ok error_count).
Proof.
  unfold attempt; run_script.
  destruct (update_one E h pw hist) as [d r]; run_script.
  intros ->. now rewrite app_nil_r.
Qed.

(** The body of the loop when the upgrade raises: the first clause,
    [except Exception], takes every error of [update_one]. *)
Lemma attempt_failure (args : Namespace) (h : host) (pw : string)
    (error_count : Z) (hist : trace) (ex : exn) :
  snd (update_one E h pw hist) = Raise ex ->
  attempt E args pw h error_count hist
  = ((fst (update_one E h pw hist)
      ++ [Print ("Updating " ++ str_host h ++ " failed (" ++ str_exn ex ++ ")")])%list,
     if ignore args then Ok (error_count + 1)
     else Raise (SystemExit (ExitCode 2))).
Proof.
  intros Hex. pose proof (update_one_raises_Exception _ _ _ _ Hex) as Hcls.
  revert Hex. unfold attempt; run_script.
  destruct (update_one E h pw hist) as [d r]; run_script.
  intros ->. rewrite Hcls.
  destruct (ignore args); run_script; simpl; reflexivity.
Qed.
End UpdateOne.

(** Splits membership in an explicit list of events into its cases. *)
Ltac in_cases H :=
  simpl in H;
  repeat match type of H with
         | _ \/ _ => destruct H as [H | H]
         | False => destruct H
         end.

(** Closes a case where a status both is and is not the hangup status. *)
Ltac same_status :=
  match goal with
  | H : _ <> _ |- _ => exfalso; apply H; reflexivity
  end.

Section UpdateOneClaims.
Variable E : env.

(** C1: when the refresh command succeeds and the install command raises a
    [CalledProcessError] whose [returncode] is [-signal.SIGHUP], whatever its
    stdout and stderr hold, [update_one] returns normally, and the loop of
    [main] leaves [error_count] as it was and prints no failure. *)
Theorem hangup_install_is_success (h : host) (pw : string) (hist : trace)
    (out err out' err' msg : string) :
  In (Run h "opkg update" (RunOk out err))
     (fst (update_one E h pw hist)) ->
  In (Run h "opkg install firmware"
        (RunCalledProcessError (- SIGHUP) out' err' msg))
     (fst (update_one E h pw hist)) ->
  snd (update_one E h pw hist) = Ok tt /\
  forall (args : Namespace) (error_count : Z),
    attempt E args pw h error_count hist
    = (fst (update_one E h pw hist), Ok error_count).
Proof.
  intros _ Hin.
  assert (Hok : snd (update_one E h pw hist) = Ok tt).
  { pose proof (update_one_behaviour E h pw hist) as Hrun.
    destruct (update_one E h pw hist) as [d r]; simpl in *.
    destruct Hrun; try reflexivity; in_cases Hin; try discriminate.
    inversion Hin; subst. same_status. }
  split; [exact Hok |].
  intros args error_count. now apply attempt_success.
Qed.

(** C3: when the install command raises a [CalledProcessError] whose
    [returncode] is not [-signal.SIGHUP], the error leaves [update_one], and
    the loop of [main] counts the host as an error: it prints the failure
    and either adds one to [error_count] (with [--ignore]) or stops the run
    at once. *)
Theorem other_install_failure_is_failed (h : host) (pw : string)
    (hist : trace) (rc : Z) (out err msg : string) :
  rc <> - SIGHUP ->
  In (Run h "opkg install firmware" (RunCalledProcessError rc out err msg))
     (fst (update_one E h pw hist)) ->
  snd (update_one E h pw hist) = Raise (CalledProcessError rc out err msg) /\
  forall (args : Namespace) (error_count : Z),
    attempt E args pw h error_count hist
    = ((fst (update_one E h pw hist)
        ++ [Print ("Updating " ++ str_host h ++ " failed (" ++ msg ++ ")")])%list,
       if ignore args then Ok (error_count + 1)
       else Raise (SystemExit (ExitCode 2))).
Proof.
  intros Hrc Hin.
  assert (Hex : snd (update_one E h pw hist)
                = Raise (CalledProcessError rc out err msg)).
  { pose proof (update_one_behaviour E h pw hist) as Hrun.
    destruct (update_one E h pw hist) as [d r]; simpl in *.
    destruct Hrun; in_cases Hin; try discriminate;
      inversion Hin; subst; try reflexivity; try discriminate.
    same_status. }
  split; [exact Hex |].
  intros args error_count.
  now rewrite (attempt_failure E args h pw error_count hist _ Hex).
Qed.

(** C6: when the refresh command raises, for any reason (the hangup status
    too), [update_one] raises that error, which is an [Exception], no
    install command is run in the call, and the loop of [main] counts the
    host as an error. *)
Theorem refresh_failure_skips_install (h : host) (pw : string)
    (hist : trace) (r : run_response) (ex : exn) :
  In (Run h "opkg update" r) (fst (update_one E h pw hist)) ->
  SSHManager.result_of r = Raise ex ->
  snd (update_one E h pw hist) = Raise ex /\
  isinstance_Exception ex = true /\
  (forall (h' : host) (r' : run_response),
      ~ In (Run h' "opkg install firmware" r')
           (fst (update_one E h pw hist))) /\
  forall (args : Namespace) (error_count : Z),
    attempt E args pw h error_count hist
    = ((fst (update_one E h pw hist)
        ++ [Print ("Updating " ++ str_host h ++ " failed ("
                   ++ str_exn ex ++ ")")])%list,
       if ignore args then Ok (error_count + 1)
       else Raise (SystemExit (ExitCode 2))).
Proof.
  intros Hin Hr.
  assert (Hex : snd (update_one E h pw hist) = Raise ex
                /\ forall h' r', ~ In (Run h' "opkg install firmware" r')
                                      (fst (update_one E h pw hist))).
  { pose proof (update_one_behaviour E h pw hist) as Hrun.
    destruct (update_one E h pw hist) as [d res]; simpl in *.
    destruct Hrun; in_cases Hin; try discriminate;
      inversion Hin; subst; try discriminate.
    split; [congruence |].
    intros h' r' Hin'. in_cases Hin'; discriminate. }
  destruct Hex as [Hex Hno].
  split; [exact Hex |].
  split; [exact (update_one_raises_Exception E _ _ _ _ Hex) |].
  split; [exact Hno |].
  intros args error_count. now apply attempt_failure.
Qed.
End UpdateOneClaims.

(** ** The batch loop *)

Lemma bind_Ok {A B} (m : M A) (k : A -> M B) (hist d1 : trace) (a : A) :
  m hist = (d1, Ok a) ->
  bind m k hist
  = ((d1 ++ fst (k a (hist ++ d1)))%list, snd (k a (hist ++ d1)%list)).
Proof.
  intros Hm. unfold bind. rewrite Hm.
  now destruct (k a (hist ++ d1)%list).
Qed.

Lemma bind_Raise {A B} (m : M A) (k : A -> M B) (hist d1 : trace) (ex : exn) :
  m hist = (d1, Raise ex) -> bind m k hist = (d1, Raise ex).
Proof.
  intros Hm. unfold bind. now rewrite Hm.
Qed.

Lemma attempted_app (d1 d2 : trace) :
  attempted (d1 ++ d2)%list = (attempted d1 ++ attempted d2)%list.
Proof.
  apply flat_map_app.
Qed.

Section Batch.
Variable E : env.
Variable args : Namespace.
Variable pw : string.

(** One pass through the body of the loop: the upgrade returned and the
    count is kept, or it raised, the failure is printed and the pass ends as
    [--ignore] says. *)
Lemma attempt_cases (h : host) (error_count : Z) (hist : trace) :
  attempted (fst (attempt E args pw h error_count hist)) = [h] /\
  (snd (attempt E args pw h error_count hist) = Ok error_count \/
   (ignore args = true /\
    snd (attempt E args pw h error_count hist) = Ok (error_count + 1)) \/
   (ignore args = false /\
    snd (attempt E args pw h error_count hist)
    = Raise (SystemExit (ExitCode 2)))).
Proof.
  destruct (snd (update_one E h pw hist)) as [[] | ex] eqn:Hres.
  - rewrite (attempt_success E args h pw error_count hist Hres); simpl.
    split; [apply update_one_attempted | now left].
  - rewrite (attempt_failure E args h pw error_count hist ex Hres); simpl.
    rewrite attempted_app, update_one_attempted. split; [reflexivity |].
    right. destruct (ignore args); [left | right]; now split.
Qed.

(** The loop over [pre ++ post] when its passes over [pre] all end
    normally. *)
Lemma for_hosts_app (pre post : list host) :
  forall (error_count : Z) (hist d1 : trace) (ec1 : Z),
    for_hosts E args pw pre error_count hist = (d1, Ok ec1) ->
    for_hosts E args pw (pre ++ post) error_count hist
    = ((d1 ++ fst (for_hosts E args pw post ec1 (hist ++ d1)))%list,
       snd (for_hosts E args pw post ec1 (hist ++ d1)%list)).
Proof.
  induction pre as [| h pre IH]; intros error_count hist d1 ec1 Hpre.
  - inversion Hpre; subst. simpl. rewrite app_nil_r.
    now destruct (for_hosts E args pw post ec1 hist).
  - simpl in *. unfold bind in *.
    destruct (attempt E args pw h error_count hist) as [da [eca | ex]];
      [| discriminate].
    destruct (for_hosts E args pw pre eca (hist ++ da)%list)
      as [d1' r1] eqn:Hrest.
    inversion Hpre; subst.
    rewrite (IH _ _ _ _ Hrest). simpl.
    now rewrite <- !app_assoc.
Qed.

(** What the loop does in general: it ends normally after one attempt per
    host, in order, with between zero and one error counted per host; or
    halt-on-error is in effect and it stops with exit code 2 right after the
    attempt on some host of the list. *)
Lemma for_hosts_run (hosts : list host) :
  forall (error_count : Z) (hist : trace),
    (exists ec',
        snd (for_hosts E args pw hosts error_count hist) = Ok ec' /\
        attempted (fst (for_hosts E args pw hosts error_count hist)) = hosts /\
        error_count <= ec' <= error_count + Z.of_nat (List.length hosts)) \/
    (ignore args = false /\
     snd (for_hosts E args pw hosts error_count hist)
     = Raise (SystemExit (ExitCode 2)) /\
     exists pre h post,
       hosts = (pre ++ h :: post)%list /\
       attempted (fst (for_hosts E args pw hosts error_count hist))
       = (pre ++ [h])%list).
Proof.
  induction hosts as [| h rest IH]; intros error_count hist.
  - left. exists error_count. simpl. repeat split; lia.
  - destruct (attempt_cases h error_count hist) as [Hatt Hres].
    destruct (attempt E args pw h error_count hist) as [da [ec | ex]] eqn:Hrun;
      simpl in Hatt, Hres.
    + (* the pass ended normally: the loop goes on with the rest *)
      pose proof (bind_Ok _ (fun ec => for_hosts E args pw rest ec) _ _ _ Hrun)
        as Heq.
      change (for_hosts E args pw (h :: rest) error_count hist = (
                (da ++ fst (for_hosts E args pw rest ec (hist ++ da)))%list,
                snd (for_hosts E args pw rest ec (hist ++ da)%list))) in Heq.
      rewrite Heq; cbn [fst snd].
      assert (Hec : error_count <= ec <= error_count + 1).
      { destruct Hres as [H | [[_ H] | [_ H]]]; inversion H; lia. }
      rewrite attempted_app, Hatt.
      destruct (IH ec (hist ++ da)%list)
        as [(ec' & Hr & Ha & Hb) | (Hig & Hr & pre & h0 & post & Hh & Ha)].
      * left. exists ec'. rewrite Ha.
        repeat split; try assumption; simpl List.length; lia.
      * right. split; [assumption |]. split; [assumption |].
        exists (h :: pre), h0, post. rewrite Ha, Hh. now split.
    + (* the pass raised: the loop is left at once *)
      pose proof (bind_Raise _ (fun ec => for_hosts E args pw rest ec) _ _ _ Hrun)
        as Heq.
      change (for_hosts E args pw (h :: rest) error_count hist
              = (da, Raise ex)) in Heq.
      rewrite Heq; cbn [fst snd].
      destruct Hres as [H | [[_ H] | [Hig H]]]; try discriminate.
      right. split; [assumption |]. split; [assumption |].
      exists [], h, rest. now split.
Qed.

Lemma for_hosts_Ok_attempted (hosts : list host) (error_count : Z)
    (hist d : trace) (ec' : Z) :
  for_hosts E args pw hosts error_count hist = (d, Ok ec') ->
  attempted d = hosts.
Proof.
  intros Hrun.
  destruct (for_hosts_run hosts error_count hist)
    as [(ec & _ & Ha & _) | (_ & Hr & _)]; rewrite Hrun in *; simpl in *.
  - assumption.
  - discriminate.
Qed.

(** With [--ignore] every pass ends normally. *)
Lemma for_hosts_ignore (hosts : list host) (error_count : Z) (hist : trace) :
  ignore args = true ->
  exists ec',
    snd (for_hosts E args pw hosts error_count hist) = Ok ec' /\
    attempted (fst (for_hosts E args pw hosts error_count hist)) = hosts.
Proof.
  intros Hig.
  destruct (for_hosts_run hosts error_count hist)
    as [(ec & Hr & Ha & _) | (Hno & _)].
  - now exists ec.
  - congruence.
Qed.
End Batch.

(** ** Loading the hosts *)

Lemma quiet_attempted (d : trace) : quiet d -> attempted d = [].
Proof.
  induction 1 as [| e d He _ IH]; [reflexivity |].
  destruct e; simpl in *; try contradiction; exact IH.
Qed.

Lemma quiet_no_print (d : trace) (line : string) :
  quiet d -> ~ In (Print line) d.
Proof.
  intros Hq Hin. unfold quiet in Hq. rewrite Forall_forall in Hq.
  exact (Hq _ Hin).
Qed.

Lemma first_fields_raises (rows : list (list string)) (err : option string)
    (ex : exn) :
  first_fields rows err = Raise ex -> isinstance_Exception ex = true.
Proof.
  induction rows as [| [| f row] rows IH]; simpl.
  - destruct err; intros H; inversion H; reflexivity.
  - intros H; inversion H; reflexivity.
  - destruct (first_fields rows err); intros H; inversion H; subst.
    now apply IH.
Qed.

(** When every row has a first field and the reader met no error, the
    comprehension gives the first fields, in order. *)
Lemma first_fields_all (rows : list (list string)) :
  Forall (fun row => row <> []) rows ->
  first_fields rows None = Ok (map (fun row => Some (hd "" row)) rows).
Proof.
  induction 1 as [| [| f row] rows Hrow _ IH]; simpl.
  - reflexivity.
  - now elim Hrow.
  - now rewrite IH.
Qed.

Section Loading.
Variable E : env.

(** A run on a single host loads without any event. *)
Lemma load_single (args : Namespace) (hist : trace) :
  match batch args with Some path => truthy path | None => false end = false ->
  load E args hist = ([], Ok (py_or (password args) "", [hostname args])).
Proof.
  unfold load. destruct (batch args) as [path |]; [| reflexivity].
  now intros ->.
Qed.

(** A batch run asks for the password unless the command line gave one, then
    reads the file; the hosts are the first fields of its rows, without the
    first one when it is [host], and a file that cannot be read to its end
    ends the run. *)
Lemma load_batch (args : Namespace) (hist : trace) (path : string) :
  batch args = Some path ->
  truthy path = true ->
  load E args hist
  = let ask :=
      if truthy (password args) then []
      else [Getpass "Default password: "
              (getpass_reply E hist "Default password: ")] in
    let r := open_file E (hist ++ ask)%list path in
    ((ask ++ [Open path r])%list,
     match match r with
           | OpenError msg => Raise (OtherException msg)
           | FileText text =>
               first_fields (fst (csv.reader_rows (io.readlines text)))
                            (snd (csv.reader_rows (io.readlines text)))
           end with
     | Ok hosts =>
         Ok (if truthy (password args) then password args
             else py_or (getpass_reply E hist "Default password: ") "",
             match hosts with
             | h :: rest => if host_eqb h "host" then rest else hosts
             | [] => hosts
             end)
     | Raise ex =>
         Raise (SystemExit
                  (ExitMsg ("Invalid input file: " ++ path ++ " ("
                            ++ str_exn ex ++ ")")))
     end).
Proof.
  intros Hbatch Hpath. unfold load, getpass, read_hosts.
  rewrite Hbatch, Hpath.
  destruct (truthy (password args)); run_script;
    (destruct (open_file E _ path) as [text | msg]; run_script;
     [| reflexivity]);
    destruct (csv.reader_rows (io.readlines text)) as [rows err];
    destruct (first_fields rows err) as [hosts | ex] eqn:Hex;
    try rewrite (first_fields_raises _ _ _ Hex);
    reflexivity.
Qed.

(** Splits on the mode of the run and rewrites [load] accordingly. *)
Ltac load_cases args hist :=
  let Hb := fresh "Hbatch" in
  let Hp := fresh "Hpath" in
  let p := fresh "path" in
  destruct (batch args) as [p |] eqn:Hb;
  [ destruct (truthy p) eqn:Hp;
    [ rewrite (load_batch args hist p Hb Hp)
    | rewrite (load_single args hist) by (rewrite Hb; exact Hp) ]
  | rewrite (load_single args hist) by (now rewrite Hb) ].

Lemma load_quiet (args : Namespace) (hist : trace) :
  quiet (fst (load E args hist)).
Proof.
  load_cases args hist; cbn [fst]; try constructor.
  destruct (truthy (password args)); repeat constructor.
Qed.

(** The outcomes of loading: the password and the hosts, or the exit on an
    invalid input file. *)
Lemma load_outcome (args : Namespace) (hist : trace) :
  (exists st, snd (load E args hist) = Ok st) \/
  (exists msg, snd (load E args hist) = Raise (SystemExit (ExitMsg msg))).
Proof.
  load_cases args hist; cbn [fst snd]; try (left; eexists; reflexivity).
  match goal with
  | |- context [match ?r with Ok _ => _ | Raise _ => _ end] => destruct r
  end; [left | right]; eexists; reflexivity.
Qed.

(** The hosts of a batch run whose file was read. *)
Lemma load_read (args : Namespace) (hist : trace) (path text : string) :
  In (Open path (FileText text)) (fst (load E args hist)) ->
  exists pw,
    snd (load E args hist)
    = match first_fields (fst (csv.reader_rows (io.readlines text)))
                         (snd (csv.reader_rows (io.readlines text))) with
      | Ok hosts =>
          Ok (pw, match hosts with
                  | h :: rest => if host_eqb h "host" then rest else hosts
                  | [] => hosts
                  end)
      | Raise ex =>
          Raise (SystemExit
                   (ExitMsg ("Invalid input file: " ++ path ++ " ("
                             ++ str_exn ex ++ ")")))
      end.
Proof.
  load_cases args hist; cbn [fst snd]; try (intros []).
  intros Hin. apply in_app_or in Hin.
  destruct Hin as [Hin | Hin].
  - destruct (truthy (password args)); in_cases Hin; discriminate.
  - in_cases Hin. inversion Hin as [[Hp Hr]]. rewrite Hr.
    eexists. reflexivity.
Qed.

(** A batch run without a password from the command line starts by asking
    for one. *)
Lemma load_prompts (args : Namespace) (hist : trace) (path : string) :
  batch args = Some path ->
  truthy path = true ->
  truthy (password args) = false ->
  exists rest,
    fst (load E args hist)
    = Getpass "Default password: "
        (getpass_reply E hist "Default password: ") :: rest.
Proof.
  intros Hbatch Hpath Hpw. rewrite (load_batch args hist path Hbatch Hpath).
  rewrite Hpw. cbn [fst app]. eexists. reflexivity.
Qed.

(** A batch run that did not ask has the password of the command line, which
    is not empty. *)
Lemma load_unprompted (args : Namespace) (hist : trace) (path pw : string)
    (hosts : list host) :
  batch args = Some path ->
  truthy path = true ->
  snd (load E args hist) = Ok (pw, hosts) ->
  prompted (fst (load E args hist)) = false ->
  pw = password args /\ pw <> "".
Proof.
  intros Hbatch Hpath. rewrite (load_batch args hist path Hbatch Hpath).
  cbn [fst snd]. destruct (truthy (password args)) eqn:Hpw.
  - match goal with
    | |- context [match ?r with Ok _ => _ | Raise _ => _ end] => destruct r
    end; [| discriminate].
    intros Heq _. inversion Heq; subst. split; [reflexivity |].
    intros Hempty. rewrite Hempty in Hpw. discriminate.
  - discriminate.
Qed.

Lemma main_after_load (args : Namespace) (hist d0 : trace) (pw : string)
    (hosts : list host) :
  load E args hist = (d0, Ok (pw, hosts)) ->
  main E args hist
  = ((d0 ++ fst (for_hosts E args pw hosts 0 (hist ++ d0)))%list,
     match snd (for_hosts E args pw hosts 0 (hist ++ d0)%list) with
     | Ok error_count =>
         if negb (error_count =? 0) then
           Raise (SystemExit
                    (ExitMsg (str_int error_count ++ " errors encountered")))
         else Ok tt
     | Raise ex => Raise ex
     end).
Proof.
  intros Hload. unfold main.
  rewrite (bind_Ok _ _ _ _ _ Hload). unfold bind.
  destruct (for_hosts E args pw hosts 0 (hist ++ d0)%list) as [d [ec | ex]];
    cbn [fst snd]; [| reflexivity].
  destruct (negb (ec =? 0)); run_script; now rewrite app_nil_r.
Qed.

(** The script adds nothing to a run of [main] that returns or exits. *)
Lemma script_main (c : cli) (hist : trace) :
  handled_by_script (snd (main E (parse_args build_arg_parser c) hist)) = false ->
  script E c hist = main E (parse_args build_arg_parser c) hist.
Proof.
  unfold script, handled_by_script. run_script.
  destruct (main E (parse_args build_arg_parser c) hist) as [d [[] | ex]]; cbn [snd];
    [reflexivity |].
  destruct ex; cbn; try discriminate. now rewrite app_nil_r.
Qed.
End Loading.

(** ** The run *)

Section Run.
Variable E : env.

(** C4: with halt-on-error in effect ([--ignore] absent), when the loop
    reaches the host at position [k] (the hosts [pre] before it were dealt
    with) and the upgrade of that host raises, the attempts of the run are
    exactly the hosts up to and including position [k]: none of the hosts
    [post] after it is attempted, and the process ends there with exit
    code 2. *)
Theorem halt_on_first_failure (args : Namespace) (hist : trace)
    (pw : string) (pre : list host) (h : host) (post : list host)
    (ec : Z) (ex : exn) :
  ignore args = false ->
  snd (load E args hist) = Ok (pw, (pre ++ h :: post)%list) ->
  snd (for_hosts E args pw pre 0 (hist ++ fst (load E args hist))%list)
  = Ok ec ->
  snd (update_one E h pw
         (hist ++ fst (load E args hist)
               ++ fst (for_hosts E args pw pre 0
                         (hist ++ fst (load E args hist))))%list)
  = Raise ex ->
  attempted (fst (main E args hist)) = (pre ++ [h])%list /\
  List.length (attempted (fst (main E args hist))) = S (List.length pre) /\
  snd (main E args hist) = Raise (SystemExit (ExitCode 2)) /\
  exit_code (snd (main E args hist)) = 2.
Proof.
  intros Hig Hload Hpre Hfail.
  destruct (load E args hist) as [d0 r0] eqn:Hl; cbn [fst snd] in *; subst r0.
  destruct (for_hosts E args pw pre 0 (hist ++ d0)%list) as [d1 r1] eqn:Hp;
    cbn [fst snd] in *; subst r1.
  rewrite (main_after_load E args hist d0 pw _ Hl).
  rewrite (for_hosts_app E args pw pre (h :: post) 0 _ d1 ec Hp).
  cbn [fst snd for_hosts].
  rewrite app_assoc in Hfail.
  pose proof (attempt_failure E args h pw ec _ ex Hfail) as Hatt.
  rewrite Hig in Hatt.
  rewrite (bind_Raise _ _ _ _ _ Hatt). cbn [fst snd].
  rewrite !attempted_app, (quiet_attempted d0),
    (for_hosts_Ok_attempted E args pw pre 0 _ d1 ec Hp),
    update_one_attempted.
  - cbn [attempted flat_map app].
    repeat split. rewrite length_app. simpl. lia.
  - pose proof (load_quiet E args hist) as Hq. now rewrite Hl in Hq.
Qed.

(** C5: with [--ignore], whatever the hosts do, the attempts of the run are
    exactly the hosts of the list, one attempt per entry and in the order of
    the list (so a host listed twice is attempted twice), and the run goes
    through to its end. *)
Theorem ignore_attempts_every_host (args : Namespace) (hist : trace)
    (pw : string) (hosts : list host) :
  ignore args = true ->
  snd (load E args hist) = Ok (pw, hosts) ->
  attempted (fst (main E args hist)) = hosts /\
  List.length (attempted (fst (main E args hist))) = List.length hosts /\
  (snd (main E args hist) = Ok tt \/
   exists n,
     0 < n <= Z.of_nat (List.length hosts) /\
     snd (main E args hist)
     = Raise (SystemExit (ExitMsg (str_int n ++ " errors encountered")))).
Proof.
  intros Hig Hload.
  destruct (load E args hist) as [d0 r0] eqn:Hl; cbn [fst snd] in *; subst r0.
  rewrite (main_after_load E args hist d0 pw _ Hl). cbn [fst snd].
  destruct (for_hosts_run E args pw hosts 0 (hist ++ d0)%list)
    as [(ec & Hr & Ha & Hb) | (Hno & _)]; [| congruence].
  rewrite attempted_app, Ha, quiet_attempted.
  - rewrite Hr. repeat split.
    destruct (Z.eqb_spec ec 0) as [-> | Hec]; simpl; [now left |].
    right. exists ec. split; [lia | reflexivity].
  - pose proof (load_quiet E args hist) as Hq. now rewrite Hl in Hq.
Qed.

(** C7: with an empty host list the loop attempts nothing and leaves
    [error_count] at zero, and the run ends normally: nothing is printed, no
    failure is reported, and the exit code is 0. *)
Theorem empty_host_list_succeeds (args : Namespace) (hist : trace)
    (pw : string) :
  snd (load E args hist) = Ok (pw, []) ->
  for_hosts E args pw [] 0 (hist ++ fst (load E args hist))%list
  = ([], Ok 0) /\
  main E args hist = (fst (load E args hist), Ok tt) /\
  attempted (fst (main E args hist)) = [] /\
  (forall line, ~ In (Print line) (fst (main E args hist))) /\
  exit_code (snd (main E args hist)) = 0 /\
  (forall c, args = parse_args build_arg_parser c ->
             script E c hist = (fst (load E args hist), Ok tt)).
Proof.
  intros Hload.
  pose proof (load_quiet E args hist) as Hq.
  destruct (load E args hist) as [d0 r0] eqn:Hl; cbn [fst snd] in *; subst r0.
  assert (Hmain : main E args hist = (d0, Ok tt)).
  { rewrite (main_after_load E args hist d0 pw _ Hl). simpl.
    now rewrite app_nil_r. }
  split; [reflexivity |]. split; [exact Hmain |].
  rewrite Hmain; cbn [fst snd].
  split; [now apply quiet_attempted |].
  split; [intros line; now apply quiet_no_print |].
  split; [reflexivity |].
  intros c ->. rewrite script_main; rewrite Hmain; reflexivity.
Qed.
End Run.

(** ** The batch file and the password *)

Lemma batch_run_of_load (E : env) (args : Namespace) (hist : trace)
    (pw : string) (hosts : list host) :
  snd (load E args hist) = Ok (pw, hosts) -> batch_run E args hist hosts.
Proof.
  intros Hload. pose proof (load_quiet E args hist) as Hq.
  unfold batch_run.
  destruct (load E args hist) as [d0 r0] eqn:Hl; cbn [fst snd] in *; subst r0.
  assert (Hd0 : forall d, attempted (d0 ++ d)%list = attempted d).
  { intros d. now rewrite attempted_app, (quiet_attempted d0 Hq). }
  split; [now exists pw |].
  rewrite (main_after_load E args hist d0 pw _ Hl); cbn [fst snd].
  rewrite Hd0.
  destruct (for_hosts_run E args pw hosts 0 (hist ++ d0)%list)
    as [(ec & Hr & Ha & _) | (Hno & Hr & Hpre)].
  - split; [intros _; exact Ha | now left].
  - split; [congruence |]. right. rewrite Hr. now repeat split.
Qed.

(** C8, amended: when the batch file is read, the reader meets no error,
    every row after the first has a first field and the first field of the
    first row is [host], that row is skipped and the first fields of the
    other rows are the hosts of the run, attempted in the order of the file:
    all of them with [--ignore], and otherwise all of them unless
    halt-on-error stops the run with exit code 2 right after the attempt on
    one of them.  In particular the file of scenario D gives the hosts [dev1]
    then [dev2]. *)
Theorem header_row_is_skipped :
  (forall (E : env) (args : Namespace) (hist : trace) (path text : string)
          (f0 : list string) (rows : list (list string)),
      In (Open path (FileText text)) (fst (load E args hist)) ->
      csv.reader_rows (io.readlines text) = (("host" :: f0) :: rows, None) ->
      Forall (fun row => row <> []) rows ->
      batch_run E args hist (map (fun row => Some (hd "" row)) rows)) /\
  csv.reader_rows (io.readlines scenario_D)
  = ([["host"]; ["dev1"]; ["dev2"]], None) /\
  (forall (E : env) (args : Namespace) (hist : trace) (path : string),
      In (Open path (FileText scenario_D)) (fst (load E args hist)) ->
      batch_run E args hist [Some "dev1"; Some "dev2"]).
Proof.
  assert (Hgen : forall E args hist path text f0 rows,
             In (Open path (FileText text)) (fst (load E args hist)) ->
             csv.reader_rows (io.readlines text)
             = (("host" :: f0) :: rows, None) ->
             Forall (fun row => row <> []) rows ->
             batch_run E args hist (map (fun row => Some (hd "" row)) rows)).
  { intros E args hist path text f0 rows Hread Hrows Hall.
    destruct (load_read E args hist path text Hread) as [pw Hload].
    rewrite Hrows in Hload; cbn [fst snd first_fields] in Hload.
    rewrite (first_fields_all rows Hall) in Hload. simpl in Hload.
    exact (batch_run_of_load E args hist pw _ Hload). }
  split; [exact Hgen |]. split; [reflexivity |].
  intros E args hist path Hread.
  apply (Hgen E args hist path scenario_D [] [["dev1"]; ["dev2"]] Hread).
  - reflexivity.
  - repeat constructor; discriminate.
Qed.

(** Two runs on a batch file with a header row in which the rows after the
    header are not all attempted.  With halt-on-error, the file of scenario D
    and a first host that fails, only [dev1] is attempted, not [dev1] then
    [dev2].  With an empty line after the header, the file is refused and no
    host is attempted, even with [--ignore]. *)
Lemma header_run_may_stop_early :
  (In (Open "hosts.csv" (FileText scenario_D))
      (fst (load (fleet scenario_D (refresh_fails_on "dev1"))
                 (batch_args "hosts.csv" "pw" false) [])) /\
   attempted (fst (main (fleet scenario_D (refresh_fails_on "dev1"))
                        (batch_args "hosts.csv" "pw" false) []))
   = [Some "dev1"] /\
   attempted (fst (main (fleet scenario_D (refresh_fails_on "dev1"))
                        (batch_args "hosts.csv" "pw" false) []))
   <> [Some "dev1"; Some "dev2"] /\
   snd (main (fleet scenario_D (refresh_fails_on "dev1"))
             (batch_args "hosts.csv" "pw" false) [])
   = Raise (SystemExit (ExitCode 2))) /\
  (In (Open "hosts.csv" (FileText blank_line_file))
      (fst (load (fleet blank_line_file reboots)
                 (batch_args "hosts.csv" "pw" true) [])) /\
   csv.reader_rows (io.readlines blank_line_file)
   = ([["host"]; []; ["dev1"]], None) /\
   attempted (fst (main (fleet blank_line_file reboots)
                        (batch_args "hosts.csv" "pw" true) []))
   = [] /\
   snd (main (fleet blank_line_file reboots)
             (batch_args "hosts.csv" "pw" true) [])
   = Raise (SystemExit
              (ExitMsg "Invalid input file: hosts.csv (list index out of range)"))).
Proof.
  repeat split; try reflexivity; try discriminate; left; reflexivity.
Qed.

(** Scenario D on a fleet that reboots: both hosts are attempted. *)
Lemma header_row_is_skipped_witness :
  batch_run (fleet scenario_D reboots) (batch_args "hosts.csv" "pw" false) []
    (map (fun row => Some (hd "" row)) [["dev1"]; ["dev2"]]).
Proof.
  apply (proj1 header_row_is_skipped
           (fleet scenario_D reboots) (batch_args "hosts.csv" "pw" false) []
           "hosts.csv" scenario_D [] [["dev1"]; ["dev2"]]).
  - left; reflexivity.
  - reflexivity.
  - repeat constructor; discriminate.
Defined.

Section Password.
Variable E : env.

Lemma main_starts_with_load (args : Namespace) (hist : trace) :
  exists rest, fst (main E args hist) = (fst (load E args hist) ++ rest)%list.
Proof.
  unfold main, bind.
  destruct (load E args hist) as [d0 [[pw hosts] | ex]]; cbn [fst snd].
  - match goal with
    | |- context [let (d2, r2) := ?m in _] => destruct m as [d2 r2]
    end.
    now exists d2.
  - exists []. now rewrite app_nil_r.
Qed.

(** C10: in batch mode [-p ''] and no [-p] at all give the same namespace,
    hence the same run, and that run starts by asking the operator for the
    password; and whatever is given to [-p], a batch run that did not ask
    has a password that is not empty. *)
Theorem empty_password_flag_prompts (path : string) (ign : bool)
    (hist : trace) :
  truthy path = true ->
  parse_args build_arg_parser (batch_cli path (Some "") ign)
  = parse_args build_arg_parser (batch_cli path None ign) /\
  script E (batch_cli path (Some "") ign) hist
  = script E (batch_cli path None ign) hist /\
  (exists rest,
      fst (main E (parse_args build_arg_parser (batch_cli path (Some "") ign))
             hist)
      = Getpass "Default password: "
          (getpass_reply E hist "Default password: ") :: rest) /\
  (forall (po : option string) (pw : string) (hosts : list host),
      snd (load E (parse_args build_arg_parser (batch_cli path po ign)) hist)
      = Ok (pw, hosts) ->
      prompted
        (fst (load E (parse_args build_arg_parser (batch_cli path po ign))
                hist))
      = false ->
      pw <> "").
Proof.
  intros Hpath.
  split; [reflexivity |]. split; [reflexivity |]. split.
  - destruct (main_starts_with_load
                (parse_args build_arg_parser (batch_cli path (Some "") ign)) hist)
      as [rest ->].
    destruct (load_prompts E
                (parse_args build_arg_parser (batch_cli path (Some "") ign))
                hist path eq_refl Hpath eq_refl) as [rest' ->].
    now eexists.
  - intros po pw hosts Hload Hquiet.
    exact (proj2 (load_unprompted E
                    (parse_args build_arg_parser (batch_cli path po ign))
                    hist path pw hosts eq_refl Hpath Hload Hquiet)).
Qed.
End Password.

(** ** Runs of the example worlds *)

(** No run of [main] ends with exit code 3: the clause that would give it
    comes after [except Exception], which takes every [CalledProcessError]. *)
Lemma main_never_exits_3 (E : env) (args : Namespace) (hist : trace) :
  snd (main E args hist) <> Raise (SystemExit (ExitCode 3)).
Proof.
  destruct (load_outcome E args hist) as [[[pw hosts] Hl] | [msg Hl]];
    destruct (load E args hist) as [d0 r0] eqn:Hload; cbn [snd] in Hl; subst r0.
  - rewrite (main_after_load E args hist d0 pw hosts Hload); cbn [snd].
    destruct (for_hosts_run E args pw hosts 0 (hist ++ d0)%list)
      as [(ec & Hr & _) | (_ & Hr & _)]; rewrite Hr.
    + destruct (negb (ec =? 0)); discriminate.
    + discriminate.
  - unfold main. rewrite (bind_Raise _ _ _ _ _ Hload). discriminate.
Qed.

(** C2: the code at a halting command failure.  A single host whose refresh
    command exits with status 1 makes [update_one] raise a
    [CalledProcessError]; without [--ignore] the process then ends with exit
    code 2, the code of a generic failure, and not 3: the message printed is
    that of the first clause. *)
Lemma halting_command_failure_exits_2 :
  snd (update_one (fleet "" (refresh_fails_on "dev1")) (Some "dev1") "" [])
  = Raise (CalledProcessError 1 "" "Failed to download the package list"
             "exit status 1") /\
  script (fleet "" (refresh_fails_on "dev1")) (single_cli "dev1") []
  = ([Print "Updating dev1...";
      Connect (Some "dev1") "root" "" Connected;
      Run (Some "dev1") "opkg update"
        (RunCalledProcessError 1 "" "Failed to download the package list"
           "exit status 1");
      Close (Some "dev1");
      Print "Updating dev1 failed (exit status 1)"],
     Raise (SystemExit (ExitCode 2))) /\
  exit_code (snd (script (fleet "" (refresh_fails_on "dev1"))
                    (single_cli "dev1") []))
  = 2.
Proof.
  repeat split.
Qed.

Lemma hangup_install_is_success_witness :
  In (Run (Some "dev1") "opkg update" (RunOk "Updated list of packages" ""))
     (fst (update_one (fleet "" reboots) (Some "dev1") "pw" [])) /\
  In (Run (Some "dev1") "opkg install firmware"
        (RunCalledProcessError (- SIGHUP) "Upgrading firmware" "" "hangup"))
     (fst (update_one (fleet "" reboots) (Some "dev1") "pw" [])) /\
  snd (update_one (fleet "" reboots) (Some "dev1") "pw" []) = Ok tt /\
  forall (args : Namespace) (error_count : Z),
    attempt (fleet "" reboots) args "pw" (Some "dev1") error_count []
    = (fst (update_one (fleet "" reboots) (Some "dev1") "pw" []),
       Ok error_count).
Proof.
  assert (H1 : In (Run (Some "dev1") "opkg update"
                     (RunOk "Updated list of packages" ""))
                  (fst (update_one (fleet "" reboots) (Some "dev1") "pw" []))).
  { right; right; left; reflexivity. }
  assert (H2 : In (Run (Some "dev1") "opkg install firmware"
                     (RunCalledProcessError (- SIGHUP) "Upgrading firmware" ""
                        "hangup"))
                  (fst (update_one (fleet "" reboots) (Some "dev1") "pw" []))).
  { do 4 right; left; reflexivity. }
  split; [exact H1 |]. split; [exact H2 |].
  exact (hangup_install_is_success (fleet "" reboots) (Some "dev1") "pw" []
           _ _ _ _ _ H1 H2).
Defined.

Lemma other_install_failure_is_failed_witness :
  1 <> - SIGHUP /\
  snd (update_one (fleet "" (install_fails_on "dev1")) (Some "dev1") "pw" [])
  = Raise (CalledProcessError 1 "" "Unknown package 'firmware'"
             "exit status 1") /\
  forall (args : Namespace) (error_count : Z),
    attempt (fleet "" (install_fails_on "dev1")) args "pw" (Some "dev1")
      error_count []
    = ((fst (update_one (fleet "" (install_fails_on "dev1")) (Some "dev1")
               "pw" [])
        ++ [Print ("Updating " ++ str_host (Some "dev1") ++ " failed ("
                   ++ "exit status 1" ++ ")")])%list,
       if ignore args then Ok (error_count + 1)
       else Raise (SystemExit (ExitCode 2))).
Proof.
  assert (H1 : 1 <> - SIGHUP) by discriminate.
  split; [exact H1 |].
  apply (other_install_failure_is_failed (fleet "" (install_fails_on "dev1"))
           (Some "dev1") "pw" [] 1 "" "Unknown package 'firmware'"
           "exit status 1" H1).
  do 4 right; left; reflexivity.
Defined.

(** A refresh command that is hung up on: the host fails all the same, and
    nothing is installed. *)
Lemma refresh_failure_skips_install_witness :
  In (Run (Some "dev1") "opkg update"
        (RunCalledProcessError (- SIGHUP) "" "" "hangup"))
     (fst (update_one (fleet "" hangs_up) (Some "dev1") "pw" [])) /\
  SSHManager.result_of (RunCalledProcessError (- SIGHUP) "" "" "hangup")
  = Raise (CalledProcessError (- SIGHUP) "" "" "hangup") /\
  snd (update_one (fleet "" hangs_up) (Some "dev1") "pw" [])
  = Raise (CalledProcessError (- SIGHUP) "" "" "hangup") /\
  forall (h' : host) (r' : run_response),
    ~ In (Run h' "opkg install firmware" r')
         (fst (update_one (fleet "" hangs_up) (Some "dev1") "pw" [])).
Proof.
  assert (H1 : In (Run (Some "dev1") "opkg update"
                     (RunCalledProcessError (- SIGHUP) "" "" "hangup"))
                  (fst (update_one (fleet "" hangs_up) (Some "dev1") "pw" []))).
  { right; right; left; reflexivity. }
  assert (H2 : SSHManager.result_of
                 (RunCalledProcessError (- SIGHUP) "" "" "hangup")
               = Raise (CalledProcessError (- SIGHUP) "" "" "hangup")).
  { reflexivity. }
  destruct (refresh_failure_skips_install (fleet "" hangs_up) (Some "dev1")
              "pw" [] _ _ H1 H2) as (Hex & _ & Hno & _).
  split; [exact H1 |]. split; [exact H2 |]. split; [exact Hex | exact Hno].
Defined.

(** Three hosts, the second of which fails to refresh: the third is never
    attempted. *)
Lemma halt_on_first_failure_witness :
  attempted (fst (main (fleet "dev1
dev2
dev3
" (refresh_fails_on "dev2")) (batch_args "hosts.csv" "pw" false) []))
  = [Some "dev1"; Some "dev2"] /\
  List.length
    (attempted (fst (main (fleet "dev1
dev2
dev3
" (refresh_fails_on "dev2")) (batch_args "hosts.csv" "pw" false) [])))
  = 2%nat /\
  snd (main (fleet "dev1
dev2
dev3
" (refresh_fails_on "dev2")) (batch_args "hosts.csv" "pw" false) [])
  = Raise (SystemExit (ExitCode 2)) /\
  exit_code (snd (main (fleet "dev1
dev2
dev3
" (refresh_fails_on "dev2")) (batch_args "hosts.csv" "pw" false) []))
  = 2.
Proof.
  apply (halt_on_first_failure _ (batch_args "hosts.csv" "pw" false) [] "pw"
           [Some "dev1"] (Some "dev2") [Some "dev3"] 0
           (CalledProcessError 1 "" "Failed to download the package list"
              "exit status 1"));
    reflexivity.
Defined.

(** A host listed twice and failing both times, with [--ignore]: three
    attempts for three entries. *)
Lemma ignore_attempts_every_host_witness :
  attempted (fst (main (fleet "dev1
dev2
dev1
" (install_fails_on "dev1")) (batch_args "hosts.csv" "pw" true) []))
  = [Some "dev1"; Some "dev2"; Some "dev1"] /\
  List.length
    (attempted (fst (main (fleet "dev1
dev2
dev1
" (install_fails_on "dev1")) (batch_args "hosts.csv" "pw" true) [])))
  = 3%nat /\
  (snd (main (fleet "dev1
dev2
dev1
" (install_fails_on "dev1")) (batch_args "hosts.csv" "pw" true) []) = Ok tt \/
   exists n,
     0 < n <= 3 /\
     snd (main (fleet "dev1
dev2
dev1
" (install_fails_on "dev1")) (batch_args "hosts.csv" "pw" true) [])
     = Raise (SystemExit (ExitMsg (str_int n ++ " errors encountered")))).
Proof.
  apply (ignore_attempts_every_host _ (batch_args "hosts.csv" "pw" true) []
           "pw" [Some "dev1"; Some "dev2"; Some "dev1"]);
    reflexivity.
Defined.

(** A batch file that holds the header row only. *)
Lemma empty_host_list_succeeds_witness :
  main (fleet "host
" reboots) (batch_args "hosts.csv" "pw" false) []
  = ([Open "hosts.csv" (FileText "host
")], Ok tt) /\
  exit_code (snd (main (fleet "host
" reboots) (batch_args "hosts.csv" "pw" false) [])) = 0.
Proof.
  destruct (empty_host_list_succeeds (fleet "host
" reboots) (batch_args "hosts.csv" "pw" false) [] "pw" eq_refl)
    as (_ & Hmain & _ & _ & Hcode & _).
  split; [exact Hmain | exact Hcode].
Defined.

Lemma empty_password_flag_prompts_witness :
  truthy "hosts.csv" = true /\
  exists rest,
    fst (main (fleet scenario_D reboots)
           (parse_args build_arg_parser (batch_cli "hosts.csv" (Some "") false)) [])
    = Getpass "Default password: " "secret" :: rest.
Proof.
  split; [reflexivity |].
  exact (proj1 (proj2 (proj2 (empty_password_flag_prompts
                                (fleet scenario_D reboots) "hosts.csv" false []
                                eq_refl)))).
Defined.

(** * Further properties of the script *)

(** ** Events of a run *)

Lemma printed_app (d1 d2 : trace) :
  printed (d1 ++ d2)%list = (printed d1 ++ printed d2)%list.
Proof.
  apply flat_map_app.
Qed.

Lemma open_sessions_app (d1 d2 : trace) :
  forall opened,
    open_sessions (d1 ++ d2)%list opened
    = open_sessions d2 (open_sessions d1 opened).
Proof.
  induction d1 as [| e d1 IH]; intros opened; [reflexivity |].
  destruct e as [| | | h u p [| msg] | | | h]; simpl; apply IH.
Qed.

Lemma quiet_printed (d : trace) : quiet d -> printed d = [].
Proof.
  induction 1 as [| e d He _ IH]; [reflexivity |].
  destruct e; simpl in *; try contradiction; exact IH.
Qed.

Lemma quiet_sessions (d : trace) :
  quiet d -> forall opened, open_sessions d opened = opened.
Proof.
  induction 1 as [| e d He _ IH]; intros opened; [reflexivity |].
  destruct e; simpl in *; try contradiction; apply IH.
Qed.

Lemma quiet_upgrade_events (pw : string) (d : trace) :
  quiet d -> Forall (upgrade_event pw) d.
Proof.
  unfold quiet. apply Forall_impl.
  intros e He. destruct e; simpl in *; try contradiction; exact I.
Qed.

Section Events.
Variable E : env.
Variable args : Namespace.
Variable pw : string.

(** The events of a pass of the loop: those of the upgrade, then the failure
    line if it raised. *)
Lemma attempt_events (h : host) (error_count : Z) (hist : trace) :
  fst (attempt E args pw h error_count hist) = fst (update_one E h pw hist) \/
  exists line,
    fst (attempt E args pw h error_count hist)
    = (fst (update_one E h pw hist) ++ [Print line])%list.
Proof.
  destruct (snd (update_one E h pw hist)) as [[] | ex] eqn:Hres.
  - left. now rewrite (attempt_success E args h pw error_count hist Hres).
  - right. rewrite (attempt_failure E args h pw error_count hist ex Hres).
    eexists. reflexivity.
Qed.

(** What holds of no event, of the events of each upgrade and of a printed
    line, and is kept by putting events one after the other, holds of the
    events of the loop. *)
Lemma for_hosts_emits (P : trace -> Prop) :
  P [] ->
  (forall d1 d2, P d1 -> P d2 -> P (d1 ++ d2)%list) ->
  (forall line, P [Print line]) ->
  (forall h hist, P (fst (update_one E h pw hist))) ->
  forall hosts error_count hist,
    P (fst (for_hosts E args pw hosts error_count hist)).
Proof.
  intros Hnil Happ Hline Hup.
  induction hosts as [| h rest IH]; intros error_count hist; [exact Hnil |].
  cbn [for_hosts]. unfold bind.
  assert (Hatt : P (fst (attempt E args pw h error_count hist))).
  { destruct (attempt_events h error_count hist) as [-> | [line ->]].
    - apply Hup.
    - apply Happ; [apply Hup | apply Hline]. }
  destruct (attempt E args pw h error_count hist) as [da [ec | ex]];
    cbn [fst] in *; [| exact Hatt].
  specialize (IH ec (hist ++ da)%list).
  destruct (for_hosts E args pw rest ec (hist ++ da)%list) as [d2 r2].
  cbn [fst] in *. now apply Happ.
Qed.
End Events.

(** ** One upgrade *)

Section UpdateOneMore.
Variable E : env.

(** X1: an install command is only ever run on the session of the call, right
    after the pause of one second that follows a refresh command that
    succeeded; the call then closes the session and runs nothing else. *)
Theorem install_follows_refresh_and_pause (h : host) (pw : string)
    (hist : trace) (h' : host) (r : run_response) :
  In (Run h' "opkg install firmware" r) (fst (update_one E h pw hist)) ->
  h' = h /\
  exists out err,
    fst (update_one E h pw hist)
    = [Print ("Updating " ++ str_host h ++ "...");
       Connect h USERNAME pw Connected;
       Run h "opkg update" (RunOk out err);
       Sleep 1;
       Run h "opkg install firmware" r;
       Close h].
Proof.
  intros Hin. pose proof (update_one_behaviour E h pw hist) as Hrun.
  destruct (update_one E h pw hist) as [d res]; cbn [fst snd] in *.
  destruct Hrun; in_cases Hin; try discriminate;
    inversion Hin; subst; (split; [reflexivity |]); eexists; eexists;
    reflexivity.
Qed.

(** X2: a call returns normally exactly when it ran the install command and
    that command returned or was hung up on. *)
Theorem update_one_returns_iff (h : host) (pw : string) (hist : trace) :
  snd (update_one E h pw hist) = Ok tt <->
  exists r,
    In (Run h "opkg install firmware" r) (fst (update_one E h pw hist)) /\
    install_done r = true.
Proof.
  pose proof (update_one_behaviour E h pw hist) as Hrun.
  destruct (update_one E h pw hist) as [d res]; cbn [fst snd] in *.
  destruct Hrun as [msg | r ex Hr | | | out err rc out' err' msg Hrc | ];
    split; try discriminate; try reflexivity.
  - intros (r' & Hin & _). in_cases Hin; discriminate.
  - intros (r' & Hin & _). in_cases Hin; discriminate.
  - intros _. eexists. split; [do 4 right; left; reflexivity | reflexivity].
  - intros _. eexists. split; [do 4 right; left; reflexivity | reflexivity].
  - intros (r' & Hin & Hdone). in_cases Hin; try discriminate.
    inversion Hin; subst. simpl in Hdone.
    apply Z.eqb_eq in Hdone. now elim Hrc.
  - intros (r' & Hin & Hdone). in_cases Hin; try discriminate.
    inversion Hin; subst. discriminate.
Qed.

(** X3: when the connection cannot be made the call raises that error at
    once: no command is run, there is no session to close, and the loop of
    [main] counts the host as an error. *)
Theorem connection_failure_is_failed (h : host) (pw : string) (hist : trace)
    (h' : host) (u p msg : string) :
  In (Connect h' u p (ConnectError msg)) (fst (update_one E h pw hist)) ->
  fst (update_one E h pw hist)
  = [Print ("Updating " ++ str_host h ++ "...");
     Connect h USERNAME pw (ConnectError msg)] /\
  snd (update_one E h pw hist) = Raise (OtherException msg) /\
  forall (args : Namespace) (error_count : Z),
    attempt E args pw h error_count hist
    = ([Print ("Updating " ++ str_host h ++ "...");
        Connect h USERNAME pw (ConnectError msg);
        Print ("Updating " ++ str_host h ++ " failed (" ++ msg ++ ")")],
       if ignore args then Ok (error_count + 1)
       else Raise (SystemExit (ExitCode 2))).
Proof.
  intros Hin.
  assert (Hrun : fst (update_one E h pw hist)
                 = [Print ("Updating " ++ str_host h ++ "...");
                    Connect h USERNAME pw (ConnectError msg)] /\
                 snd (update_one E h pw hist) = Raise (OtherException msg)).
  { pose proof (update_one_behaviour E h pw hist) as Hrun.
    destruct (update_one E h pw hist) as [d res]; cbn [fst snd] in *.
    destruct Hrun; in_cases Hin; try discriminate;
      inversion Hin; subst; now split. }
  destruct Hrun as [Hd Hres].
  split; [exact Hd |]. split; [exact Hres |].
  intros args error_count.
  rewrite (attempt_failure E args h pw error_count hist _ Hres), Hd.
  reflexivity.
Qed.

(** X4: only a [CalledProcessError] can be taken for the reboot.  When the
    install command raises another exception, whatever its text, the call
    raises it and the loop of [main] counts the host as an error. *)
Theorem install_error_is_failed (h : host) (pw : string) (hist : trace)
    (msg : string) :
  In (Run h "opkg install firmware" (RunError msg))
     (fst (update_one E h pw hist)) ->
  snd (update_one E h pw hist) = Raise (OtherException msg) /\
  forall (args : Namespace) (error_count : Z),
    attempt E args pw h error_count hist
    = ((fst (update_one E h pw hist)
        ++ [Print ("Updating " ++ str_host h ++ " failed (" ++ msg ++ ")")])%list,
       if ignore args then Ok (error_count + 1)
       else Raise (SystemExit (ExitCode 2))).
Proof.
  intros Hin.
  assert (Hres : snd (update_one E h pw hist) = Raise (OtherException msg)).
  { pose proof (update_one_behaviour E h pw hist) as Hrun.
    destruct (update_one E h pw hist) as [d res]; cbn [fst snd] in *.
    destruct Hrun as [ | r ex Hr | | | | ]; in_cases Hin; try discriminate;
      inversion Hin; subst; reflexivity. }
  split; [exact Hres |].
  intros args error_count.
  now rewrite (attempt_failure E args h pw error_count hist _ Hres).
Qed.

(** The events of a call belong to an upgrade with its password. *)
Lemma update_one_upgrade_events (h : host) (pw : string) (hist : trace) :
  Forall (upgrade_event pw) (fst (update_one E h pw hist)).
Proof.
  destruct (update_one_behaviour E h pw hist);
    repeat (apply Forall_cons || apply Forall_nil); simpl; auto.
Qed.

(** A call prints its progress line and nothing else. *)
Lemma update_one_printed (h : host) (pw : string) (hist : trace) :
  printed (fst (update_one E h pw hist))
  = ["Updating " ++ str_host h ++ "..."].
Proof.
  destruct (update_one_behaviour E h pw hist); reflexivity.
Qed.

(** X5: a call never tries again: it runs the refresh command at most once,
    and the install command at most once and only after the refresh. *)
Theorem update_one_runs_each_command_once (h : host) (pw : string)
    (hist : trace) :
  commands (fst (update_one E h pw hist)) = [] \/
  commands (fst (update_one E h pw hist)) = ["opkg update"] \/
  commands (fst (update_one E h pw hist))
  = ["opkg update"; "opkg install firmware"].
Proof.
  destruct (update_one_behaviour E h pw hist); simpl; auto.
Qed.
End UpdateOneMore.

(** ** The output of the loop *)

Section Output.
Variable E : env.
Variable args : Namespace.
Variable pw : string.

(** A pass of the loop prints the progress line, and the failure line when
    the upgrade raised. *)
Lemma attempt_printed (h : host) (error_count : Z) (hist : trace) :
  (snd (attempt E args pw h error_count hist) = Ok error_count /\
   printed (fst (attempt E args pw h error_count hist))
   = [progress_line h]) \/
  (exists msg,
      snd (attempt E args pw h error_count hist)
      = (if ignore args then Ok (error_count + 1)
         else Raise (SystemExit (ExitCode 2))) /\
      printed (fst (attempt E args pw h error_count hist))
      = [progress_line h; failure_line h msg]).
Proof.
  destruct (snd (update_one E h pw hist)) as [[] | ex] eqn:Hres.
  - left. rewrite (attempt_success E args h pw error_count hist Hres).
    split; [reflexivity | apply update_one_printed].
  - right. exists (str_exn ex).
    rewrite (attempt_failure E args h pw error_count hist ex Hres).
    split; [reflexivity |].
    cbn [fst]. now rewrite printed_app, update_one_printed.
Qed.

(** The loop that ends normally printed one progress line per host and one
    failure line per error it counted; the loop that stops printed the
    progress lines of the hosts up to the failing one, then its failure
    line. *)
Lemma for_hosts_output (hosts : list host) :
  forall (error_count : Z) (hist : trace),
    match snd (for_hosts E args pw hosts error_count hist) with
    | Ok ec' =>
        error_count <= ec' /\
        Z.of_nat (List.length
                    (printed (fst (for_hosts E args pw hosts error_count hist))))
        = Z.of_nat (List.length hosts) + (ec' - error_count) /\
        (ec' = error_count ->
         printed (fst (for_hosts E args pw hosts error_count hist))
         = map progress_line hosts)
    | Raise ex =>
        ignore args = false /\
        ex = SystemExit (ExitCode 2) /\
        exists pre h post msg,
          hosts = (pre ++ h :: post)%list /\
          attempted (fst (for_hosts E args pw hosts error_count hist))
          = (pre ++ [h])%list /\
          printed (fst (for_hosts E args pw hosts error_count hist))
          = (map progress_line (pre ++ [h]) ++ [failure_line h msg])%list
    end.
Proof.
  induction hosts as [| h rest IH]; intros error_count hist.
  - simpl. repeat split; lia.
  - pose proof (attempt_printed h error_count hist) as Hpr.
    pose proof (attempt_cases E args pw h error_count hist) as [Hatt _].
    destruct (attempt E args pw h error_count hist) as [da [ec | ex]] eqn:Hrun;
      cbn [fst snd] in Hpr, Hatt.
    + pose proof (bind_Ok _ (fun ec => for_hosts E args pw rest ec) _ _ _ Hrun)
        as Heq.
      change (for_hosts E args pw (h :: rest) error_count hist = (
                (da ++ fst (for_hosts E args pw rest ec (hist ++ da)))%list,
                snd (for_hosts E args pw rest ec (hist ++ da)%list))) in Heq.
      rewrite Heq; cbn [fst snd]. specialize (IH ec (hist ++ da)%list).
      destruct (for_hosts E args pw rest ec (hist ++ da)%list)
        as [d2 [ec' | ex]]; cbn [fst snd] in *.
      * destruct IH as (Hle & Hlen & Hsame).
        rewrite printed_app, length_app, Nat2Z.inj_add, Hlen.
        destruct Hpr as [[Hec Hda] | (msg & Hec & Hda)]; rewrite Hda.
        -- inversion Hec; subst ec. simpl List.length.
           repeat split; try lia.
           intros ->. cbn [map app]. now rewrite (Hsame eq_refl).
        -- destruct (ignore args); [| discriminate].
           inversion Hec; subst ec. simpl List.length.
           repeat split; lia.
      * destruct IH as (Hig & -> & pre & h0 & post & msg & Hh & Ha & Hp).
        split; [exact Hig |]. split; [reflexivity |].
        exists (h :: pre), h0, post, msg.
        rewrite attempted_app, printed_app, Hatt, Ha, Hp, Hh.
        split; [reflexivity |]. split; [reflexivity |].
        destruct Hpr as [[_ Hda] | (msg' & Hec & _)].
        -- rewrite Hda. reflexivity.
        -- rewrite Hig in Hec. discriminate.
    + pose proof (bind_Raise _ (fun ec => for_hosts E args pw rest ec) _ _ _ Hrun)
        as Heq.
      change (for_hosts E args pw (h :: rest) error_count hist
              = (da, Raise ex)) in Heq.
      rewrite Heq; cbn [fst snd].
      destruct Hpr as [[Hec _] | (msg & Hec & Hda)]; [discriminate |].
      destruct (ignore args); [discriminate |].
      inversion Hec; subst ex.
      split; [reflexivity |]. split; [reflexivity |].
      exists [], h, rest, msg. now repeat split.
Qed.
End Output.

(** ** Whole runs *)

Lemma py_or_empty (s : string) : py_or s "" = s.
Proof.
  unfold py_or, truthy. destruct (String.eqb_spec s ""); simpl; congruence.
Qed.

Lemma prompted_app (d1 d2 : trace) :
  prompted (d1 ++ d2)%list = prompted d1 || prompted d2.
Proof.
  apply existsb_app.
Qed.

Lemma first_fields_empty_row (rows : list (list string))
    (err : option string) :
  In [] rows ->
  first_fields rows err = Raise (OtherException "list index out of range").
Proof.
  induction rows as [| [| f row] rows IH]; simpl.
  - intros [].
  - reflexivity.
  - intros [Hrow | Hin]; [discriminate |]. now rewrite IH.
Qed.

(** A run is on a single host or in batch mode. *)
Lemma run_mode (args : Namespace) :
  match batch args with Some path => truthy path | None => false end = false \/
  exists path, batch args = Some path /\ truthy path = true.
Proof.
  destruct (batch args) as [path |]; [| now left].
  destruct (truthy path) eqn:Hpath; [right; now exists path | now left].
Qed.

Section RunMore.
Variable E : env.

(** The events of a run are those of loading, then those of the loop. *)
Lemma main_split (args : Namespace) (hist : trace) :
  exists rest,
    fst (main E args hist) = (fst (load E args hist) ++ rest)%list /\
    forall P : trace -> Prop,
      P [] ->
      (forall d1 d2, P d1 -> P d2 -> P (d1 ++ d2)%list) ->
      (forall line, P [Print line]) ->
      (forall pw hosts,
          snd (load E args hist) = Ok (pw, hosts) ->
          forall h hist', P (fst (update_one E h pw hist'))) ->
      P rest.
Proof.
  destruct (load E args hist) as [d0 [[pw hosts] | ex]] eqn:Hl.
  - rewrite (main_after_load E args hist d0 pw hosts Hl); cbn [fst snd].
    eexists. split; [reflexivity |].
    intros P Hnil Happ Hline Hup.
    apply for_hosts_emits; try assumption. now apply (Hup pw hosts).
  - unfold main. rewrite (bind_Raise _ _ _ _ _ Hl). cbn [fst].
    exists []. split; [now rewrite app_nil_r |]. now intros P Hnil _ _ _.
Qed.

(** A run on a single host. *)
Lemma main_single (args : Namespace) (hist : trace) :
  match batch args with Some path => truthy path | None => false end = false ->
  fst (load E args hist) = [] /\
  attempted (fst (main E args hist)) = [hostname args] /\
  exists rest,
    fst (main E args hist)
    = (fst (update_one E (hostname args) (password args) hist) ++ rest)%list /\
    match snd (update_one E (hostname args) (password args) hist) with
    | Ok _ => rest = [] /\ snd (main E args hist) = Ok tt
    | Raise ex =>
        rest = [Print (failure_line (hostname args) (str_exn ex))] /\
        snd (main E args hist)
        = (if ignore args then
             Raise (SystemExit (ExitMsg "1 errors encountered"))
           else Raise (SystemExit (ExitCode 2)))
    end.
Proof.
  intros Hmode. pose proof (load_single E args hist Hmode) as Hl.
  rewrite py_or_empty in Hl.
  rewrite (main_after_load E args hist _ _ _ Hl), Hl.
  cbn [fst snd for_hosts app]. rewrite app_nil_r.
  split; [reflexivity |].
  unfold bind.
  destruct (snd (update_one E (hostname args) (password args) hist))
    as [[] | ex] eqn:Hres.
  - rewrite (attempt_success E args _ _ 0 hist Hres). cbn [fst snd ret].
    rewrite !app_nil_r. split; [apply update_one_attempted |].
    exists []. now rewrite app_nil_r.
  - rewrite (attempt_failure E args _ _ 0 hist ex Hres).
    destruct (ignore args); cbn [fst snd ret];
      rewrite ?app_nil_r, attempted_app, update_one_attempted;
      (split; [reflexivity |]); eexists; split; try reflexivity;
      split; reflexivity.
Qed.
End RunMore.

Section RunClaims.
Variable E : env.

(** X6: every connection of a run is made as [USERNAME] with the one password
    of the run, the only commands ever run on a host are the refresh and the
    install command, and every pause lasts one second. *)
Theorem run_uses_one_password (args : Namespace) (hist : trace)
    (pw : string) (hosts : list host) :
  snd (load E args hist) = Ok (pw, hosts) ->
  Forall (upgrade_event pw) (fst (main E args hist)).
Proof.
  intros Hload.
  destruct (main_split E args hist) as (rest & -> & Hrest).
  apply Forall_app. split.
  - apply quiet_upgrade_events, load_quiet.
  - apply Hrest.
    + constructor.
    + intros d1 d2 H1 H2. apply Forall_app. now split.
    + intros line. now repeat constructor.
    + intros pw' hosts' Hload' h hist'.
      rewrite Hload in Hload'. inversion Hload'; subst.
      apply update_one_upgrade_events.
Qed.

(** X8: in batch mode the password of the run is the one of the command line
    when it is not empty, and otherwise what the operator types at the
    prompt, which is shown once, before the batch file is opened. *)
Theorem batch_password_source (args : Namespace) (hist : trace)
    (path : string) :
  batch args = Some path ->
  truthy path = true ->
  prompted (fst (main E args hist)) = negb (truthy (password args)) /\
  Forall (upgrade_event
            (if truthy (password args) then password args
             else getpass_reply E hist "Default password: "))
         (fst (main E args hist)) /\
  exists rest,
    fst (main E args hist)
    = ((if truthy (password args) then []
        else [Getpass "Default password: "
                (getpass_reply E hist "Default password: ")])
       ++ Open path
            (open_file E
               (hist ++ (if truthy (password args) then []
                         else [Getpass "Default password: "
                                 (getpass_reply E hist "Default password: ")]))
               path)
       :: rest)%list /\
    prompted rest = false.
Proof.
  intros Hbatch Hpath.
  destruct (main_split E args hist) as (rest & Hmain & Hrest).
  pose proof (load_batch E args hist path Hbatch Hpath) as Hload.
  cbv zeta in Hload. rewrite Hmain, Hload in *. cbn [fst snd] in *.
  assert (Hnone : prompted rest = false).
  { apply Hrest; try reflexivity.
    - intros d1 d2 H1 H2. now rewrite prompted_app, H1, H2.
    - intros pw hosts _ h hist'.
      destruct (update_one_behaviour E h pw hist'); reflexivity. }
  split; [| split].
  - rewrite !prompted_app, Hnone.
    destruct (truthy (password args)); reflexivity.
  - apply Forall_app. split.
    + destruct (truthy (password args)); repeat constructor.
    + apply Hrest.
      * constructor.
      * intros d1 d2 H1 H2. apply Forall_app. now split.
      * intros line. now repeat constructor.
      * intros pw hosts Hok h hist'.
        match type of Hok with
        | match ?r with Ok _ => _ | Raise _ => _ end = _ =>
            destruct r; [| discriminate]
        end.
        inversion Hok; subst. rewrite py_or_empty.
        apply update_one_upgrade_events.
  - exists rest. split; [| exact Hnone].
    now rewrite <- app_assoc.
Qed.

(** X9: a run on a single host never prompts and never opens a file; it
    starts the upgrade of that host at once, with the password of the command
    line, and attempts nothing else.  It ends with exit code 0 when the
    upgrade returns; when the upgrade raises, with exit code 2, or with
    [--ignore] with the message of one error, that is exit code 1. *)
Theorem single_host_run (args : Namespace) (hist : trace) :
  match batch args with Some path => truthy path | None => false end = false ->
  prompted (fst (main E args hist)) = false /\
  (forall path r, ~ In (Open path r) (fst (main E args hist))) /\
  attempted (fst (main E args hist)) = [hostname args] /\
  (exists r rest,
      fst (main E args hist)
      = Print (progress_line (hostname args))
        :: Connect (hostname args) USERNAME (password args) r :: rest) /\
  snd (main E args hist)
  = match snd (update_one E (hostname args) (password args) hist) with
    | Ok _ => Ok tt
    | Raise _ =>
        if ignore args then Raise (SystemExit (ExitMsg "1 errors encountered"))
        else Raise (SystemExit (ExitCode 2))
    end /\
  exit_code (snd (main E args hist))
  = match snd (update_one E (hostname args) (password args) hist) with
    | Ok _ => 0
    | Raise _ => if ignore args then 1 else 2
    end.
Proof.
  intros Hmode.
  destruct (main_single E args hist Hmode) as (_ & Hatt & rest & Hd & Hres).
  assert (Hrest : rest = [] \/ exists line, rest = [Print line]).
  { destruct (snd (update_one E (hostname args) (password args) hist));
      destruct Hres as [-> _]; [now left | right; now eexists]. }
  pose proof (update_one_behaviour E (hostname args) (password args) hist)
    as Hrun.
  split; [| split; [| split; [exact Hatt | split; [| split]]]].
  - rewrite Hd, prompted_app.
    destruct Hrest as [-> | [line ->]]; destruct Hrun; reflexivity.
  - intros path r. rewrite Hd. intros Hin. apply in_app_or in Hin.
    destruct Hin as [Hin | Hin].
    + destruct Hrun; in_cases Hin; discriminate.
    + destruct Hrest as [-> | [line ->]]; in_cases Hin; discriminate.
  - rewrite Hd. destruct Hrun; eexists; eexists; reflexivity.
  - destruct (snd (update_one E (hostname args) (password args) hist));
      now destruct Hres as [_ ->].
  - destruct (snd (update_one E (hostname args) (password args) hist));
      destruct Hres as [_ ->]; [reflexivity |].
    now destruct (ignore args).
Qed.

(** X10: when the batch file cannot be opened or read, the run ends on the
    message of the invalid input file, with exit code 1, before any host is
    attempted and before anything is printed. *)
Theorem unreadable_file_aborts_run (args : Namespace) (hist : trace)
    (path msg : string) :
  In (Open path (OpenError msg)) (fst (load E args hist)) ->
  main E args hist
  = (fst (load E args hist),
     Raise (SystemExit
              (ExitMsg ("Invalid input file: " ++ path ++ " (" ++ msg ++ ")")))) /\
  attempted (fst (main E args hist)) = [] /\
  printed (fst (main E args hist)) = [] /\
  exit_code (snd (main E args hist)) = 1.
Proof.
  intros Hin. pose proof (load_quiet E args hist) as Hq.
  assert (Hl : snd (load E args hist)
               = Raise (SystemExit
                          (ExitMsg ("Invalid input file: " ++ path ++ " ("
                                    ++ msg ++ ")")))).
  { revert Hin.
    destruct (run_mode args) as [Hmode | (path' & Hbatch & Hpath)].
    - rewrite (load_single E args hist Hmode). intros [].
    - rewrite (load_batch E args hist path' Hbatch Hpath). cbn [fst snd].
      intros Hin. apply in_app_or in Hin. destruct Hin as [Hin | Hin].
      + destruct (truthy (password args)); in_cases Hin; discriminate.
      + in_cases Hin. inversion Hin as [[Hp Hr]]. now rewrite Hr. }
  assert (Hmain : main E args hist = (fst (load E args hist), Raise (SystemExit
                          (ExitMsg ("Invalid input file: " ++ path ++ " ("
                                    ++ msg ++ ")"))))).
  { destruct (load E args hist) as [d0 r0] eqn:Hload; cbn [fst snd] in *.
    subst r0. unfold main. now rewrite (bind_Raise _ _ _ _ _ Hload). }
  rewrite Hmain; cbn [fst snd].
  repeat split; [now apply quiet_attempted | now apply quiet_printed].
Qed.

(** X11: a row without a first field (an empty line) anywhere in the batch
    file makes the whole file invalid: the run ends with
    [list index out of range] in its message and no host is attempted, not
    even those listed before that row. *)
Theorem empty_row_aborts_run (args : Namespace) (hist : trace)
    (path text : string) :
  In (Open path (FileText text)) (fst (load E args hist)) ->
  In [] (fst (csv.reader_rows (io.readlines text))) ->
  main E args hist
  = (fst (load E args hist),
     Raise (SystemExit
              (ExitMsg ("Invalid input file: " ++ path
                        ++ " (list index out of range)")))) /\
  attempted (fst (main E args hist)) = [] /\
  printed (fst (main E args hist)) = [] /\
  exit_code (snd (main E args hist)) = 1.
Proof.
  intros Hread Hrow. pose proof (load_quiet E args hist) as Hq.
  destruct (load_read E args hist path text Hread) as [pw Hl].
  rewrite (first_fields_empty_row _ _ Hrow) in Hl. cbn [str_exn] in Hl.
  assert (Hmain : main E args hist
                  = (fst (load E args hist),
                     Raise (SystemExit
                              (ExitMsg ("Invalid input file: " ++ path
                                        ++ " (list index out of range)"))))).
  { destruct (load E args hist) as [d0 r0] eqn:Hload; cbn [fst snd] in *.
    subst r0. unfold main. now rewrite (bind_Raise _ _ _ _ _ Hload). }
  rewrite Hmain; cbn [fst snd].
  repeat split; [now apply quiet_attempted | now apply quiet_printed].
Qed.

(** X12: only a first row whose first field is exactly [host] is taken for a
    header.  When the first field of the first row is anything else, that row
    is a host like the others: the hosts of the run are the first fields of
    all the rows, in the order of the file. *)
Theorem first_row_without_header_is_a_host (args : Namespace) (hist : trace)
    (path text f : string) (f0 : list string) (rows : list (list string)) :
  In (Open path (FileText text)) (fst (load E args hist)) ->
  csv.reader_rows (io.readlines text) = ((f :: f0) :: rows, None) ->
  f <> "host" ->
  Forall (fun row => row <> []) rows ->
  batch_run E args hist (Some f :: map (fun row => Some (hd "" row)) rows).
Proof.
  intros Hread Hrows Hf Hall.
  destruct (load_read E args hist path text Hread) as [pw Hload].
  rewrite Hrows in Hload; cbn [fst snd first_fields] in Hload.
  rewrite (first_fields_all rows Hall) in Hload. cbn [host_eqb] in Hload.
  apply String.eqb_neq in Hf. rewrite Hf in Hload.
  exact (batch_run_of_load E args hist pw _ Hload).
Qed.

(** X13: with [--ignore] the run reports the number of failure lines it
    printed: the lines printed beyond one progress line per host.  It ends
    normally when there is none, and otherwise with the message of that many
    errors, whichever hosts failed. *)
Theorem ignore_reports_failure_count (args : Namespace) (hist : trace)
    (pw : string) (hosts : list host) :
  ignore args = true ->
  snd (load E args hist) = Ok (pw, hosts) ->
  0 <= Z.of_nat (List.length (printed (fst (main E args hist))))
       - Z.of_nat (List.length hosts)
    <= Z.of_nat (List.length hosts) /\
  snd (main E args hist)
  = (if Z.of_nat (List.length (printed (fst (main E args hist))))
        - Z.of_nat (List.length hosts) =? 0
     then Ok tt
     else Raise (SystemExit
                   (ExitMsg
                      (str_int
                         (Z.of_nat
                            (List.length (printed (fst (main E args hist))))
                          - Z.of_nat (List.length hosts))
                       ++ " errors encountered")))).
Proof.
  intros Hig Hload. pose proof (load_quiet E args hist) as Hq.
  destruct (load E args hist) as [d0 r0] eqn:Hl; cbn [fst snd] in *; subst r0.
  rewrite (main_after_load E args hist d0 pw hosts Hl); cbn [fst snd].
  rewrite printed_app, (quiet_printed d0 Hq). cbn [app].
  pose proof (for_hosts_output E args pw hosts 0 (hist ++ d0)%list) as Hout.
  destruct (for_hosts_run E args pw hosts 0 (hist ++ d0)%list)
    as [(ec & Hr & _ & Hb) | (Hno & _)]; [| congruence].
  rewrite Hr in *. destruct Hout as (_ & Hlen & _).
  replace (Z.of_nat (List.length
                       (printed (fst (for_hosts E args pw hosts 0
                                        (hist ++ d0)%list))))
           - Z.of_nat (List.length hosts)) with ec by lia.
  split; [lia |].
  now destruct (ec =? 0).
Qed.

(** X14: a run that ends normally attempted every host of its list, in
    order, and printed exactly one progress line per host and nothing else. *)
Theorem successful_run_output (args : Namespace) (hist : trace)
    (pw : string) (hosts : list host) :
  snd (load E args hist) = Ok (pw, hosts) ->
  snd (main E args hist) = Ok tt ->
  attempted (fst (main E args hist)) = hosts /\
  printed (fst (main E args hist)) = map progress_line hosts.
Proof.
  intros Hload. pose proof (load_quiet E args hist) as Hq.
  destruct (load E args hist) as [d0 r0] eqn:Hl; cbn [fst snd] in *; subst r0.
  rewrite (main_after_load E args hist d0 pw hosts Hl); cbn [fst snd].
  rewrite printed_app, attempted_app, (quiet_printed d0 Hq),
    (quiet_attempted d0 Hq). cbn [app].
  pose proof (for_hosts_output E args pw hosts 0 (hist ++ d0)%list) as Hout.
  destruct (for_hosts E args pw hosts 0 (hist ++ d0)%list)
    as [d [ec | ex]] eqn:Hrun; cbn [fst snd] in *; [| discriminate].
  destruct (Z.eqb_spec ec 0) as [-> | Hec]; [| discriminate].
  intros _. destruct Hout as (_ & _ & Hsame).
  split; [| now apply Hsame].
  exact (for_hosts_Ok_attempted E args pw hosts 0 _ d 0 Hrun).
Qed.

(** X15: a run ends with exit code 2 only if halt-on-error is in effect, and
    then its output is the progress lines of the hosts it attempted, which
    are the first hosts of its list, followed by one failure line, for the
    last host attempted. *)
Theorem halted_run_output (args : Namespace) (hist : trace) :
  snd (main E args hist) = Raise (SystemExit (ExitCode 2)) ->
  ignore args = false /\
  exists pw pre h post msg,
    snd (load E args hist) = Ok (pw, (pre ++ h :: post)%list) /\
    attempted (fst (main E args hist)) = (pre ++ [h])%list /\
    printed (fst (main E args hist))
    = (map progress_line (pre ++ [h]) ++ [failure_line h msg])%list.
Proof.
  pose proof (load_quiet E args hist) as Hq.
  destruct (load_outcome E args hist) as [[[pw hosts] Hl] | [msg Hl]];
    destruct (load E args hist) as [d0 r0] eqn:Hload;
    cbn [fst snd] in *; subst r0.
  - rewrite (main_after_load E args hist d0 pw hosts Hload); cbn [fst snd].
    rewrite printed_app, attempted_app, (quiet_printed d0 Hq),
      (quiet_attempted d0 Hq). cbn [app].
    pose proof (for_hosts_output E args pw hosts 0 (hist ++ d0)%list) as Hout.
    destruct (snd (for_hosts E args pw hosts 0 (hist ++ d0)%list))
      as [ec | ex].
    + destruct (negb (ec =? 0)); discriminate.
    + intros _.
      destruct Hout as (Hig & _ & pre & h & post & msg & -> & Ha & Hp).
      split; [exact Hig |]. now exists pw, pre, h, post, msg.
  - unfold main. rewrite (bind_Raise _ _ _ _ _ Hload). discriminate.
Qed.

(** X17: an empty path given to [--batch] is not taken for a batch file: no
    file is opened, and the run is that of a single host whose name is
    [None], attempted once under the name [None]. *)
Theorem empty_batch_path_is_single_host (c : cli) (hist : trace) :
  cli_from c = CliBatch "" ->
  (forall path r,
      ~ In (Open path r) (fst (main E (parse_args build_arg_parser c) hist))) /\
  attempted (fst (main E (parse_args build_arg_parser c) hist)) = [None] /\
  exists r rest,
    fst (main E (parse_args build_arg_parser c) hist)
    = Print "Updating None..."
      :: Connect None USERNAME (password (parse_args build_arg_parser c)) r
      :: rest.
Proof.
  intros Hfrom.
  assert (Hmode : match batch (parse_args build_arg_parser c) with
                  | Some path => truthy path
                  | None => false
                  end = false).
  { simpl. now rewrite Hfrom. }
  assert (Hname : hostname (parse_args build_arg_parser c) = None).
  { simpl. now rewrite Hfrom. }
  destruct (main_single E _ hist Hmode) as (_ & Hatt & rest & Hd & Hres).
  rewrite Hname in *.
  pose proof (update_one_behaviour E None
                (password (parse_args build_arg_parser c)) hist) as Hrun.
  split; [| split; [exact Hatt |]].
  - intros path r. rewrite Hd. intros Hin. apply in_app_or in Hin.
    destruct Hin as [Hin | Hin].
    + destruct Hrun; in_cases Hin; discriminate.
    + destruct (snd (update_one E None _ hist)); destruct Hres as [-> _];
        in_cases Hin; discriminate.
  - rewrite Hd. destruct Hrun; eexists; eexists; reflexivity.
Qed.
End RunClaims.

(** ** Batch files with one host per line *)

Lemma append_assoc (a b c : string) : (a ++ b) ++ c = a ++ (b ++ c).
Proof.
  induction a as [| x a IH]; simpl; [reflexivity | now rewrite IH].
Qed.

Lemma append_empty_r (a : string) : a ++ "" = a.
Proof.
  induction a as [| x a IH]; simpl; [reflexivity | now rewrite IH].
Qed.

Lemma length_append (a b : string) :
  String.length (a ++ b) = (String.length a + String.length b)%nat.
Proof.
  induction a as [| x a IH]; simpl; [reflexivity | now rewrite IH].
Qed.

Lemma plain_char_spec (c : ascii) :
  plain_char c = true ->
  Ascii.eqb c io.LF = false /\ Ascii.eqb c io.CR = false /\
  Ascii.eqb c csv.delimiter = false /\ Ascii.eqb c csv.quotechar = false.
Proof.
  unfold plain_char, csv.is_newline.
  destruct (Ascii.eqb c io.LF), (Ascii.eqb c io.CR),
    (Ascii.eqb c csv.delimiter), (Ascii.eqb c csv.quotechar);
    simpl; intros H; try discriminate; auto.
Qed.

(** Reading lines goes through a name without ending the line. *)
Lemma lines_from_plain (name : string) :
  forall text cur,
    plain_chars name = true ->
    io.lines_from (name ++ text) cur = io.lines_from text (cur ++ name).
Proof.
  induction name as [| c name IH]; intros text cur Hplain.
  - now rewrite append_empty_r.
  - simpl in Hplain. apply andb_prop in Hplain. destruct Hplain as [Hc Hrest].
    destruct (plain_char_spec c Hc) as (Hlf & Hcr & _).
    change ((String c name ++ text)) with (String c (name ++ text)).
    cbn [io.lines_from]. rewrite Hcr, Hlf, (IH _ _ Hrest), append_assoc.
    reflexivity.
Qed.

Lemma readlines_one_per_line (names : list string) :
  forallb plain_name names = true ->
  io.readlines (one_per_line names)
  = map (fun name => name ++ String io.LF "") names.
Proof.
  unfold io.readlines.
  induction names as [| name rest IH]; intros Hall; [reflexivity |].
  simpl in Hall. apply andb_prop in Hall. destruct Hall as [Hname Hrest].
  unfold plain_name in Hname.
  apply andb_prop in Hname. destruct Hname as [Hname _].
  apply andb_prop in Hname. destruct Hname as [_ Hplain].
  cbn [one_per_line map]. rewrite (lines_from_plain name _ _ Hplain).
  cbn [io.lines_from].
  change (Ascii.eqb io.LF io.CR) with false.
  change (Ascii.eqb io.LF io.LF) with true. cbv iota.
  now rewrite (IH Hrest).
Qed.

(** The reader in a bare field takes the rest of the name, then the line
    end, and is back at the start of a record with the field saved. *)
Lemma parse_line_in_field (name : string) :
  forall fs f,
    plain_chars name = true ->
    Z.of_nat (String.length f) + Z.of_nat (String.length name)
    <= csv.field_limit ->
    csv.parse_line
      {| csv.state := csv.IN_FIELD; csv.fields := fs; csv.field := f |}
      (name ++ String io.LF "")
    = inr {| csv.state := csv.START_RECORD;
             csv.fields := (fs ++ [(f ++ name)%string])%list;
             csv.field := "" |}.
Proof.
  induction name as [| c name IH]; intros fs f Hplain Hlen.
  - now rewrite append_empty_r.
  - simpl in Hplain. apply andb_prop in Hplain. destruct Hplain as [Hc Hrest].
    destruct (plain_char_spec c Hc) as (Hlf & Hcr & Hdel & _).
    change (String c name ++ String io.LF "")
      with (String c (name ++ String io.LF "")).
    cbn [csv.parse_line csv.parse_process_char csv.state].
    unfold csv.is_newline. rewrite Hlf, Hcr, Hdel. cbn [orb].
    unfold csv.add_then, csv.parse_add_char. cbn [csv.field csv.fields csv.state].
    simpl String.length in Hlen.
    destruct (Z.leb_spec csv.field_limit (Z.of_nat (String.length f)));
      [lia |].
    unfold csv.set_state. cbn [csv.field csv.fields csv.state].
    rewrite (IH _ _ Hrest).
    + now rewrite append_assoc.
    + rewrite length_append. simpl String.length. lia.
Qed.

(** A line that holds one name gives the record of that name. *)
Lemma parse_line_name (name : string) :
  plain_name name = true ->
  csv.parse_line csv.parse_reset (name ++ String io.LF "")
  = inr {| csv.state := csv.START_RECORD;
           csv.fields := [name];
           csv.field := "" |}.
Proof.
  unfold plain_name. intros Hname.
  apply andb_prop in Hname. destruct Hname as [Hname Hlen].
  apply andb_prop in Hname. destruct Hname as [Hne Hplain].
  apply Z.leb_le in Hlen.
  destruct name as [| c name]; [discriminate |].
  simpl in Hplain. apply andb_prop in Hplain. destruct Hplain as [Hc Hrest].
  destruct (plain_char_spec c Hc) as (Hlf & Hcr & Hdel & Hquote).
  change (String c name ++ String io.LF "")
    with (String c (name ++ String io.LF "")).
  cbn [csv.parse_line csv.parse_process_char csv.parse_reset csv.state].
  unfold csv.is_newline. rewrite Hlf, Hcr. cbn [orb].
  unfold csv.parse_start_field, csv.set_state, csv.is_newline.
  rewrite Hlf, Hcr, Hdel, Hquote. cbn [orb csv.state csv.fields csv.field].
  unfold csv.add_then, csv.parse_add_char, csv.set_state, csv.parse_reset.
  cbn [csv.field csv.fields csv.state String.length Z.of_nat String.append].
  change (csv.field_limit <=? 0) with false. cbv iota.
  cbn [csv.field csv.fields].
  simpl String.length in Hlen.
  rewrite (parse_line_in_field name [] (String c "") Hrest).
  - reflexivity.
  - simpl String.length. lia.
Qed.

(** Round trip: the reader gives back the names written one per line. *)
Lemma reader_rows_one_per_line (names : list string) :
  forallb plain_name names = true ->
  csv.reader_rows (io.readlines (one_per_line names))
  = (map (fun name => [name]) names, None).
Proof.
  intros Hall. rewrite (readlines_one_per_line names Hall).
  unfold csv.reader_rows.
  induction names as [| name rest IH]; [reflexivity |].
  simpl in Hall. apply andb_prop in Hall. destruct Hall as [Hname Hrest].
  cbn [map csv.rows_from]. rewrite (parse_line_name name Hname).
  cbn [csv.state csv.fields]. now rewrite (IH Hrest).
Qed.

(** X18: round trip of a batch file.  A file written with one host name per
    line (names that are not empty, hold no comma, quote or line end, and fit
    the field limit of the reader) gives a run over exactly these names, in
    order, without the first one when it is [host]. *)
Theorem one_host_per_line_file (E : env) (args : Namespace) (hist : trace)
    (path : string) (names : list string) :
  In (Open path (FileText (one_per_line names))) (fst (load E args hist)) ->
  forallb plain_name names = true ->
  batch_run E args hist
    (match names with
     | name :: rest =>
         if String.eqb name "host" then map Some rest else map Some names
     | [] => []
     end).
Proof.
  intros Hread Hall.
  destruct (load_read E args hist path _ Hread) as [pw Hload].
  rewrite (reader_rows_one_per_line names Hall) in Hload.
  cbn [fst snd] in Hload.
  rewrite first_fields_all in Hload.
  - rewrite map_map in Hload. cbn [hd] in Hload.
    apply (batch_run_of_load E args hist pw).
    rewrite Hload. destruct names as [| name rest]; [reflexivity |].
    cbn [map host_eqb]. now destruct (String.eqb name "host").
  - apply Forall_forall. intros row Hin. apply in_map_iff in Hin.
    destruct Hin as (name & <- & _). discriminate.
Qed.

(** ** Runs of the example worlds, continued *)

Lemma install_follows_refresh_and_pause_witness :
  Some "dev1" = Some "dev1" /\
  exists out err,
    fst (update_one (fleet "" reboots) (Some "dev1") "pw" [])
    = [Print ("Updating " ++ str_host (Some "dev1") ++ "...");
       Connect (Some "dev1") USERNAME "pw" Connected;
       Run (Some "dev1") "opkg update" (RunOk out err);
       Sleep 1;
       Run (Some "dev1") "opkg install firmware"
         (RunCalledProcessError (- SIGHUP) "Upgrading firmware" "" "hangup");
       Close (Some "dev1")].
Proof.
  apply (install_follows_refresh_and_pause (fleet "" reboots) (Some "dev1")
           "pw" [] (Some "dev1")
           (RunCalledProcessError (- SIGHUP) "Upgrading firmware" ""
              "hangup")).
  do 4 right; left; reflexivity.
Defined.

Lemma connection_failure_is_failed_witness :
  snd (update_one (unreachable "") (Some "dev1") "pw" [])
  = Raise (OtherException "timed out").
Proof.
  apply (connection_failure_is_failed (unreachable "") (Some "dev1") "pw" []
           (Some "dev1") "root" "pw" "timed out").
  right; left; reflexivity.
Defined.

Lemma install_error_is_failed_witness :
  snd (update_one (fleet "" drops_during_install) (Some "dev1") "pw" [])
  = Raise (OtherException "Connection reset by peer -SIGHUP").
Proof.
  apply (install_error_is_failed (fleet "" drops_during_install) (Some "dev1")
           "pw" [] "Connection reset by peer -SIGHUP").
  do 4 right; left; reflexivity.
Defined.

Lemma run_uses_one_password_witness :
  Forall (upgrade_event "pw")
    (fst (main (fleet scenario_D reboots) (batch_args "hosts.csv" "pw" false)
            [])).
Proof.
  apply (run_uses_one_password (fleet scenario_D reboots)
           (batch_args "hosts.csv" "pw" false) [] "pw"
           [Some "dev1"; Some "dev2"]).
  reflexivity.
Defined.

Lemma batch_password_source_witness :
  prompted (fst (main (fleet scenario_D reboots)
                   (parse_args build_arg_parser
                      (batch_cli "hosts.csv" None false)) []))
  = true /\
  Forall (upgrade_event "secret")
    (fst (main (fleet scenario_D reboots)
            (parse_args build_arg_parser (batch_cli "hosts.csv" None false))
            [])).
Proof.
  destruct (batch_password_source (fleet scenario_D reboots)
              (parse_args build_arg_parser (batch_cli "hosts.csv" None false))
              [] "hosts.csv" eq_refl eq_refl)
    as (Hprompt & Hpw & _).
  split; [exact Hprompt | exact Hpw].
Defined.

Lemma single_host_run_witness :
  attempted (fst (main (fleet "" (install_fails_on "dev1"))
                    (parse_args build_arg_parser (single_cli "dev1")) []))
  = [Some "dev1"] /\
  exit_code (snd (main (fleet "" (install_fails_on "dev1"))
                    (parse_args build_arg_parser (single_cli "dev1")) []))
  = 2.
Proof.
  destruct (single_host_run (fleet "" (install_fails_on "dev1"))
              (parse_args build_arg_parser (single_cli "dev1")) [] eq_refl)
    as (_ & _ & Hatt & _ & _ & Hcode).
  split; [exact Hatt | exact Hcode].
Defined.

Lemma unreadable_file_aborts_run_witness :
  main no_file (batch_args "hosts.csv" "pw" true) []
  = ([Open "hosts.csv" (OpenError "No such file or directory")],
     Raise (SystemExit
              (ExitMsg
                 "Invalid input file: hosts.csv (No such file or directory)"))).
Proof.
  apply (unreadable_file_aborts_run no_file (batch_args "hosts.csv" "pw" true)
           [] "hosts.csv" "No such file or directory").
  left; reflexivity.
Defined.

Lemma empty_row_aborts_run_witness :
  attempted (fst (main (fleet blank_line_file reboots)
                    (batch_args "hosts.csv" "pw" true) []))
  = [] /\
  exit_code (snd (main (fleet blank_line_file reboots)
                    (batch_args "hosts.csv" "pw" true) []))
  = 1.
Proof.
  destruct (empty_row_aborts_run (fleet blank_line_file reboots)
              (batch_args "hosts.csv" "pw" true) [] "hosts.csv"
              blank_line_file)
    as (_ & Hatt & _ & Hcode).
  - left; reflexivity.
  - right; left; reflexivity.
  - split; [exact Hatt | exact Hcode].
Defined.

Lemma first_row_without_header_is_a_host_witness :
  batch_run (fleet (one_per_line ["Host"; "dev2"]) reboots)
    (batch_args "hosts.csv" "pw" false) []
    [Some "Host"; Some "dev2"].
Proof.
  apply (first_row_without_header_is_a_host
           (fleet (one_per_line ["Host"; "dev2"]) reboots)
           (batch_args "hosts.csv" "pw" false) [] "hosts.csv"
           (one_per_line ["Host"; "dev2"]) "Host" [] [["dev2"]]).
  - left; reflexivity.
  - reflexivity.
  - discriminate.
  - repeat constructor; discriminate.
Defined.

Lemma ignore_reports_failure_count_witness :
  snd (main (fleet (one_per_line ["dev1"; "dev2"; "dev1"])
               (install_fails_on "dev1"))
         (batch_args "hosts.csv" "pw" true) [])
  = Raise (SystemExit (ExitMsg "2 errors encountered")).
Proof.
  exact (proj2 (ignore_reports_failure_count
                  (fleet (one_per_line ["dev1"; "dev2"; "dev1"])
                     (install_fails_on "dev1"))
                  (batch_args "hosts.csv" "pw" true) [] "pw"
                  [Some "dev1"; Some "dev2"; Some "dev1"] eq_refl eq_refl)).
Defined.

Lemma successful_run_output_witness :
  attempted (fst (main (fleet scenario_D reboots)
                    (batch_args "hosts.csv" "pw" false) []))
  = [Some "dev1"; Some "dev2"] /\
  printed (fst (main (fleet scenario_D reboots)
                  (batch_args "hosts.csv" "pw" false) []))
  = ["Updating dev1..."; "Updating dev2..."].
Proof.
  exact (successful_run_output (fleet scenario_D reboots)
           (batch_args "hosts.csv" "pw" false) [] "pw"
           [Some "dev1"; Some "dev2"] eq_refl eq_refl).
Defined.

Lemma halted_run_output_witness :
  ignore (batch_args "hosts.csv" "pw" false) = false /\
  exists pw pre h post msg,
    snd (load (fleet scenario_D (refresh_fails_on "dev2"))
           (batch_args "hosts.csv" "pw" false) [])
    = Ok (pw, (pre ++ h :: post)%list) /\
    attempted (fst (main (fleet scenario_D (refresh_fails_on "dev2"))
                      (batch_args "hosts.csv" "pw" false) []))
    = (pre ++ [h])%list /\
    printed (fst (main (fleet scenario_D (refresh_fails_on "dev2"))
                    (batch_args "hosts.csv" "pw" false) []))
    = (map progress_line (pre ++ [h]) ++ [failure_line h msg])%list.
Proof.
  exact (halted_run_output (fleet scenario_D (refresh_fails_on "dev2"))
           (batch_args "hosts.csv" "pw" false) [] eq_refl).
Defined.

Lemma empty_batch_path_is_single_host_witness :
  attempted (fst (main (fleet "" reboots)
                    (parse_args build_arg_parser (batch_cli "" None false))
                    []))
  = [None].
Proof.
  exact (proj1 (proj2 (empty_batch_path_is_single_host (fleet "" reboots)
                         (batch_cli "" None false) [] eq_refl))).
Defined.

Lemma one_host_per_line_file_witness :
  batch_run (fleet (one_per_line ["dev1"; "dev2"]) reboots)
    (batch_args "hosts.csv" "pw" false) []
    [Some "dev1"; Some "dev2"].
Proof.
  apply (one_host_per_line_file
           (fleet (one_per_line ["dev1"; "dev2"]) reboots)
           (batch_args "hosts.csv" "pw" false) [] "hosts.csv"
           ["dev1"; "dev2"]).
  - left; reflexivity.
  - reflexivity.
Defined.

(** * The operator at the keyboard *)

(** Runs the monad's operations in a world that may interrupt. *)
Ltac run_live :=
  cbv beta iota zeta delta
    [with_stmt try_except bind print sleep emit ret raise sys_exit dispatch
     SSHManager.enter SSHManager.run SSHManager.exit_ SSHManager.result_of
     Interruptible.interruptible Interruptible.print Interruptible.sleep
     Interruptible.enter Interruptible.run Interruptible.getpass
     Interruptible.read_hosts read_hosts
     fst snd];
  cbn [app isinstance_CalledProcessError isinstance_Exception
       isinstance_KeyboardInterrupt exn_returncode].

(** Splits on the next thing the world decides. *)
Ltac ask_world W :=
  match goal with
  | |- context [operator_interrupts W ?hist] =>
      destruct (operator_interrupts W hist) eqn:?
  | |- context [end_of_input W ?hist] =>
      destruct (end_of_input W hist) eqn:?
  | |- context [ssh_connect (replies W) ?hist ?h ?u ?p] =>
      destruct (ssh_connect (replies W) hist h u p) eqn:?
  | |- context [ssh_run (replies W) ?hist ?h ?cmd] =>
      destruct (ssh_run (replies W) hist h cmd) eqn:?
  | |- context [open_file (replies W) ?hist ?path] =>
      destruct (open_file (replies W) hist path) eqn:?
  end;
  run_live.

Section Interrupts.
Variable W : world.

(** A call of [update_one] that the operator may interrupt goes one of the
    ways of an undisturbed call, or is cut short by [KeyboardInterrupt]. *)
Lemma interruptible_update_one_paths (h : host) (pw : string) (hist : trace) :
  update_one_run h pw (fst (Interruptible.update_one W h pw hist))
                      (snd (Interruptible.update_one W h pw hist)) \/
  (snd (Interruptible.update_one W h pw hist) = Raise KeyboardInterrupt /\
   update_one_interrupted h pw (fst (Interruptible.update_one W h pw hist))).
Proof.
  unfold Interruptible.update_one; run_live.
  repeat ask_world W;
    try (right; split; [reflexivity | constructor]);
    try (left; constructor; reflexivity).
  all: left.
  all: try (match goal with
            | |- context [?rc =? - SIGHUP] =>
                destruct (Z.eqb_spec rc (- SIGHUP)) as [-> | Hrc]
            end; run_live; now constructor).
Qed.

(** An undisturbed call that raises, raises an [Exception]. *)
Lemma update_one_run_raises (h : host) (pw : string) (d : trace) (ex : exn) :
  update_one_run h pw d (Raise ex) -> isinstance_Exception ex = true.
Proof.
  intros Hrun.
  inversion Hrun as [ | r ex' Hr | | | | ]; subst; try reflexivity.
  destruct r; simpl in Hr; inversion Hr; reflexivity.
Qed.

Lemma interruptible_update_one_ends (h : host) (pw : string) (hist : trace) :
  ends_as_a_call (snd (Interruptible.update_one W h pw hist)).
Proof.
  unfold ends_as_a_call.
  destruct (interruptible_update_one_paths h pw hist) as [Hrun | [Hint _]];
    [| now right; right].
  destruct (snd (Interruptible.update_one W h pw hist)) as [[] | ex];
    [now left |].
  right; left. exists ex. split; [reflexivity |].
  exact (update_one_run_raises _ _ _ _ Hrun).
Qed.

(** A call leaves the open sessions as they were, also when it is
    interrupted. *)
Lemma interruptible_update_one_sessions (h : host) (pw : string)
    (hist : trace) :
  forall opened,
    open_sessions (fst (Interruptible.update_one W h pw hist)) opened = opened.
Proof.
  intros opened.
  destruct (interruptible_update_one_paths h pw hist) as [Hrun | [_ Hint]].
  - destruct Hrun; simpl; now rewrite ?host_eq_refl.
  - destruct Hint; simpl; now rewrite ?host_eq_refl.
Qed.

(** A pass of the loop: the events of the upgrade, then at most the failure
    line; it ends with the count kept or raised by one, with exit code 2, or
    interrupted. *)
Lemma interruptible_attempt (args : Namespace) (pw : string) (h : host)
    (error_count : Z) (hist : trace) :
  exists tail,
    fst (Interruptible.attempt W args pw h error_count hist)
    = (fst (Interruptible.update_one W h pw hist) ++ tail)%list /\
    (tail = [] \/ exists line, tail = [Print line]) /\
    (snd (Interruptible.attempt W args pw h error_count hist) = Ok error_count \/
     (ignore args = true /\
      snd (Interruptible.attempt W args pw h error_count hist)
      = Ok (error_count + 1)) \/
     (ignore args = false /\
      snd (Interruptible.attempt W args pw h error_count hist)
      = Raise (SystemExit (ExitCode 2))) \/
     snd (Interruptible.attempt W args pw h error_count hist)
     = Raise KeyboardInterrupt).
Proof.
  pose proof (interruptible_update_one_ends h pw hist) as Hend.
  unfold Interruptible.attempt; run_live.
  destruct (Interruptible.update_one W h pw hist) as [d r]; run_live.
  unfold ends_as_a_call in Hend; cbn [snd] in Hend.
  destruct Hend as [-> | [(ex & -> & Hcls) | ->]]; run_live.
  - exists []. split; [reflexivity |]. split; [now left | now left].
  - rewrite Hcls.
    destruct (operator_interrupts W (hist ++ d)%list); run_live.
    + exists []. split; [reflexivity |]. split; [now left |].
      now right; right; right.
    + destruct (ignore args); run_live; eexists; (split; [reflexivity |]);
        (split; [right; eexists; reflexivity |]).
      * right; left. now split.
      * right; right; left. now split.
  - exists []. split; [reflexivity |]. split; [now left |].
    now right; right; right.
Qed.

(** The loop: what holds of the events of every upgrade and of a printed
    line holds of its events; it ends normally, with exit code 2 under
    halt-on-error, or interrupted. *)
Lemma interruptible_for_hosts (args : Namespace) (pw : string)
    (P : trace -> Prop) :
  P [] ->
  (forall d1 d2, P d1 -> P d2 -> P (d1 ++ d2)%list) ->
  (forall line, P [Print line]) ->
  (forall h hist, P (fst (Interruptible.update_one W h pw hist))) ->
  forall hosts error_count hist,
    P (fst (Interruptible.for_hosts W args pw hosts error_count hist)) /\
    ((exists ec,
         snd (Interruptible.for_hosts W args pw hosts error_count hist)
         = Ok ec) \/
     (ignore args = false /\
      snd (Interruptible.for_hosts W args pw hosts error_count hist)
      = Raise (SystemExit (ExitCode 2))) \/
     snd (Interruptible.for_hosts W args pw hosts error_count hist)
     = Raise KeyboardInterrupt).
Proof.
  intros Hnil Happ Hline Hup.
  induction hosts as [| h rest IH]; intros error_count hist.
  - split; [exact Hnil | left; now eexists].
  - cbn [Interruptible.for_hosts]. unfold bind.
    destruct (interruptible_attempt args pw h error_count hist)
      as (tail & Hd & Htail & Hres).
    assert (Hatt : P (fst (Interruptible.attempt W args pw h error_count hist))).
    { rewrite Hd. apply Happ; [apply Hup |].
      destruct Htail as [-> | [line ->]]; [exact Hnil | apply Hline]. }
    destruct (Interruptible.attempt W args pw h error_count hist)
      as [da [ec | ex]]; cbn [fst snd] in *.
    + destruct (IH ec (hist ++ da)%list) as [HP Hout].
      destruct (Interruptible.for_hosts W args pw rest ec (hist ++ da)%list)
        as [d2 r2]; cbn [fst snd] in *.
      split; [now apply Happ | exact Hout].
    + split; [exact Hatt |].
      destruct Hres as [H | [[_ H] | [[Hig H] | H]]]; try discriminate;
        inversion H; subst; [right; left; now split | now right; right].
Qed.

(** Loading: quiet, and it gives the password and the hosts, ends the run on
    an invalid file, is interrupted, or meets the end of the input at the
    prompt. *)
Lemma interruptible_load (args : Namespace) (hist : trace) :
  quiet (fst (Interruptible.load W args hist)) /\
  ((exists st, snd (Interruptible.load W args hist) = Ok st) \/
   (exists msg,
       snd (Interruptible.load W args hist)
       = Raise (SystemExit (ExitMsg msg))) \/
   snd (Interruptible.load W args hist) = Raise KeyboardInterrupt \/
   snd (Interruptible.load W args hist) = Raise (OtherException "")).
Proof.
  unfold Interruptible.load, quiet.
  destruct (batch args) as [path |]; [destruct (truthy path) |];
    try (run_live; split; [constructor | left; eexists; reflexivity]).
  destruct (truthy (password args)); run_live;
    repeat ask_world W;
    try match goal with
        | |- context [csv.reader_rows ?ls] =>
            destruct (csv.reader_rows ls) as [rows err]
        end;
    try match goal with
        | |- context [first_fields ?r ?e] =>
            let H := fresh "Hex" in
            destruct (first_fields r e) as [hs | ex] eqn:H;
            try rewrite (first_fields_raises _ _ _ H)
        end;
    run_live;
    (split;
     [ repeat constructor
     | first [ left; eexists; reflexivity
             | right; left; eexists; reflexivity
             | right; right; left; reflexivity
             | right; right; right; reflexivity ] ]).
Qed.

(** A run: the events of loading, then those of the loop; it ends normally,
    with a message, with exit code 2 under halt-on-error, interrupted, or on
    the end of the input at the prompt. *)
Lemma interruptible_main (args : Namespace) (hist : trace) :
  (exists rest,
      fst (Interruptible.main W args hist)
      = (fst (Interruptible.load W args hist) ++ rest)%list /\
      forall P : trace -> Prop,
        P [] ->
        (forall d1 d2, P d1 -> P d2 -> P (d1 ++ d2)%list) ->
        (forall line, P [Print line]) ->
        (forall pw h hist', P (fst (Interruptible.update_one W h pw hist'))) ->
        P rest) /\
  (snd (Interruptible.main W args hist) = Ok tt \/
   (exists msg,
       snd (Interruptible.main W args hist)
       = Raise (SystemExit (ExitMsg msg))) \/
   (ignore args = false /\
    snd (Interruptible.main W args hist) = Raise (SystemExit (ExitCode 2))) \/
   snd (Interruptible.main W args hist) = Raise KeyboardInterrupt \/
   snd (Interruptible.main W args hist) = Raise (OtherException "")).
Proof.
  destruct (interruptible_load args hist) as [_ Hload].
  unfold Interruptible.main, bind.
  destruct (Interruptible.load W args hist) as [d0 [[pw hosts] | ex]];
    cbn [fst snd] in *.
  - pose proof (fun P Hnil Happ Hline Hup =>
                  interruptible_for_hosts args pw P Hnil Happ Hline Hup
                    hosts 0 (hist ++ d0)%list) as Hloop.
    destruct (Interruptible.for_hosts W args pw hosts 0 (hist ++ d0)%list)
      as [d [ec | ex]]; cbn [fst snd] in *.
    + split.
      * destruct (negb (ec =? 0)); run_live; rewrite app_nil_r;
          (eexists; split; [reflexivity |]);
          intros P Hnil Happ Hline Hup;
          apply (Hloop P Hnil Happ Hline); intros h hist'; apply Hup.
      * destruct (negb (ec =? 0)); run_live; [right; left; eexists |]; eauto.
    + split.
      * eexists; split; [reflexivity |].
        intros P Hnil Happ Hline Hup.
        apply (Hloop P Hnil Happ Hline); intros h hist'; apply Hup.
      * destruct (Hloop (fun _ => True) I (fun _ _ _ _ => I) (fun _ => I)
                    (fun _ _ => I)) as [_ [[ec H] | [[Hig H] | H]]];
          try discriminate; inversion H; subst; auto.
  - split.
    + exists []. split; [now rewrite app_nil_r |]. now intros P Hnil _ _ _.
    + destruct Hload as [[st H] | [[msg H] | [H | H]]]; try discriminate;
        inversion H; subst; eauto 6.
Qed.
End Interrupts.

(** ** The undisturbed world *)

(** In the world that the operator leaves alone the script is the one of the
    first part. *)
Lemma undisturbed_update_one (E : env) (h : host) (pw : string)
    (hist : trace) :
  Interruptible.update_one (undisturbed E) h pw hist = update_one E h pw hist.
Proof.
  reflexivity.
Qed.

Lemma undisturbed_load (E : env) (args : Namespace) (hist : trace) :
  Interruptible.load (undisturbed E) args hist = load E args hist.
Proof.
  reflexivity.
Qed.

Lemma undisturbed_attempt (E : env) (args : Namespace) (pw : string)
    (h : host) (error_count : Z) (hist : trace) :
  Interruptible.attempt (undisturbed E) args pw h error_count hist
  = attempt E args pw h error_count hist.
Proof.
  reflexivity.
Qed.

Lemma undisturbed_for_hosts (E : env) (args : Namespace) (pw : string)
    (hosts : list host) :
  forall error_count hist,
    Interruptible.for_hosts (undisturbed E) args pw hosts error_count hist
    = for_hosts E args pw hosts error_count hist.
Proof.
  induction hosts as [| h rest IH]; intros error_count hist; [reflexivity |].
  cbn [Interruptible.for_hosts for_hosts]. unfold bind.
  rewrite undisturbed_attempt.
  destruct (attempt E args pw h error_count hist) as [da [ec | ex]];
    [| reflexivity].
  now rewrite IH.
Qed.

Lemma undisturbed_main (E : env) (args : Namespace) (hist : trace) :
  Interruptible.main (undisturbed E) args hist = main E args hist.
Proof.
  unfold Interruptible.main, main, bind. rewrite undisturbed_load.
  destruct (load E args hist) as [d0 [[pw hosts] | ex]]; [| reflexivity].
  now rewrite undisturbed_for_hosts.
Qed.

Lemma undisturbed_script (E : env) (c : cli) (hist : trace) :
  Interruptible.script (undisturbed E) c hist = script E c hist.
Proof.
  unfold Interruptible.script, script, try_except.
  now rewrite undisturbed_main.
Qed.

(** ** Sessions and exit codes under interrupts *)

Section InterruptClaims.
Variable W : world.

(** The [with] statement over a session that was acquired: whatever the body
    does, and whatever it raises, closing the session is the last event and
    the outcome of the body is the outcome of the statement. *)
Lemma with_session_releases (h : host) (u p : string) (body : host -> M unit)
    (hist : trace) :
  operator_interrupts W hist = false ->
  ssh_connect (replies W) hist h u p = Connected ->
  with_stmt (Interruptible.enter W h u p) SSHManager.exit_ body hist
  = ((Connect h u p Connected
      :: fst (body h (hist ++ [Connect h u p Connected])) ++ [Close h])%list,
     snd (body h (hist ++ [Connect h u p Connected])%list)).
Proof.
  intros Hcalm Hconn. run_live. rewrite Hcalm, Hconn. run_live.
  destruct (body h (hist ++ [Connect h u p Connected])%list)
    as [d1 [[] | ex]]; reflexivity.
Qed.

(** C9: on every path through [update_one] the session is released before
    the call ends, whether the call returns, raises an [Exception] or is cut
    short by the operator's [KeyboardInterrupt].  Either no session was
    opened (the call was interrupted before or while connecting, or the
    connection failed), or one was, only commands and the pause follow, and
    closing it is the last event of the call.  This is the [with] statement:
    once the session is acquired, closing it is the last event whatever the
    body raises. *)
Theorem session_closed_on_every_path (h : host) (pw : string)
    (hist : trace) :
  let d := fst (Interruptible.update_one W h pw hist) in
  open_sessions d [] = [] /\
  ends_as_a_call (snd (Interruptible.update_one W h pw hist)) /\
  (d = [] \/
   d = [Print ("Updating " ++ str_host h ++ "...")] \/
   (exists msg,
       d = [Print ("Updating " ++ str_host h ++ "...");
            Connect h USERNAME pw (ConnectError msg)]) \/
   (exists cmds,
       d = (Print ("Updating " ++ str_host h ++ "...")
            :: Connect h USERNAME pw Connected :: cmds ++ [Close h])%list /\
       Forall (fun e => match e with
                        | Run h' _ _ => h' = h
                        | Sleep _ => True
                        | _ => False
                        end) cmds)) /\
  (forall (body : host -> M unit) (u p : string) (hist' : trace),
      operator_interrupts W hist' = false ->
      ssh_connect (replies W) hist' h u p = Connected ->
      with_stmt (Interruptible.enter W h u p) SSHManager.exit_ body hist'
      = ((Connect h u p Connected
          :: fst (body h (hist' ++ [Connect h u p Connected])) ++ [Close h])%list,
         snd (body h (hist' ++ [Connect h u p Connected])%list))).
Proof.
  cbv zeta.
  split; [apply interruptible_update_one_sessions |].
  split; [apply interruptible_update_one_ends |].
  split; [| intros body u p hist'; apply with_session_releases].
  destruct (interruptible_update_one_paths W h pw hist) as [Hrun | [_ Hint]].
  - destruct Hrun;
      [ right; right; left; eexists; reflexivity
      | right; right; right .. ].
    + eexists [_]. split; [reflexivity |]. repeat constructor.
    + eexists [_; _; _]. split; [reflexivity |]. repeat constructor.
    + eexists [_; _; _]. split; [reflexivity |]. repeat constructor.
    + eexists [_; _; _]. split; [reflexivity |]. repeat constructor.
    + eexists [_; _; _]. split; [reflexivity |]. repeat constructor.
  - destruct Hint; [now left | now right; left | right; right; right ..].
    + exists []. split; [reflexivity | constructor].
    + eexists [_]. split; [reflexivity |]. repeat constructor.
    + eexists [_; _]. split; [reflexivity |]. repeat constructor.
Qed.

(** The events of the script are those of [main]. *)
Lemma interruptible_script (c : cli) (hist : trace) :
  fst (Interruptible.script W c hist)
  = fst (Interruptible.main W (parse_args build_arg_parser c) hist) /\
  snd (Interruptible.script W c hist)
  = match snd (Interruptible.main W (parse_args build_arg_parser c) hist) with
    | Ok _ => Ok tt
    | Raise ex =>
        if isinstance_KeyboardInterrupt ex then Raise (SystemExit (ExitCode 1))
        else if isinstance_Exception ex then
          Raise (SystemExit (ExitMsg ("error: " ++ str_exn ex)))
        else Raise ex
    end.
Proof.
  unfold Interruptible.script; run_live.
  destruct (Interruptible.main W (parse_args build_arg_parser c) hist)
    as [d [[] | ex]]; run_live; [now split |].
  destruct ex; run_live; now rewrite app_nil_r.
Qed.

(** X7: a run leaves no session open, however it ends: normally, with the
    count of errors, stopped by a failure, on an invalid file, on the end of
    the input at the prompt, or interrupted by the operator in the middle of
    an upgrade.  Every session that an upgrade opened is closed by the time
    [main], and the script around it, is over. *)
Theorem run_leaves_no_session_open (args : Namespace) (c : cli)
    (hist : trace) :
  (forall opened,
      open_sessions (fst (Interruptible.main W args hist)) opened = opened) /\
  (forall opened,
      open_sessions (fst (Interruptible.script W c hist)) opened = opened).
Proof.
  assert (Hmain : forall args' opened,
             open_sessions (fst (Interruptible.main W args' hist)) opened
             = opened).
  { intros args' opened.
    destruct (interruptible_main W args' hist) as [(rest & -> & Hrest) _].
    rewrite open_sessions_app.
    rewrite (quiet_sessions _ (proj1 (interruptible_load W args' hist))).
    revert opened. apply Hrest.
    - reflexivity.
    - intros d1 d2 H1 H2 opened. now rewrite open_sessions_app, H1, H2.
    - reflexivity.
    - intros pw h hist'. apply interruptible_update_one_sessions. }
  split; [apply Hmain |].
  intros opened. rewrite (proj1 (interruptible_script c hist)). apply Hmain.
Qed.

End InterruptClaims.

(** ** Runs with the operator at the keyboard *)

(** The operator interrupts the install command: the call ends with
    [KeyboardInterrupt] and the session is closed. *)
Lemma session_closed_on_every_path_witness :
  Interruptible.update_one (ctrl_c_after 4 (fleet "" reboots)) (Some "dev1")
    "pw" []
  = ([Print "Updating dev1...";
      Connect (Some "dev1") "root" "pw" Connected;
      Run (Some "dev1") "opkg update" (RunOk "Updated list of packages" "");
      Sleep 1;
      Close (Some "dev1")],
     Raise KeyboardInterrupt) /\
  open_sessions
    (fst (Interruptible.update_one (ctrl_c_after 4 (fleet "" reboots))
            (Some "dev1") "pw" []))
    [] = [].
Proof.
  split; [reflexivity |].
  exact (proj1 (session_closed_on_every_path (ctrl_c_after 4 (fleet "" reboots))
                  (Some "dev1") "pw" [])).
Defined.

(** The operator interrupts the install command on the second host of
    scenario D: no session is left open. *)
Lemma run_leaves_no_session_open_witness :
  snd (Interruptible.main (ctrl_c_after 11 (fleet scenario_D reboots))
         (batch_args "hosts.csv" "pw" false) [])
  = Raise KeyboardInterrupt /\
  attempted
    (fst (Interruptible.main (ctrl_c_after 11 (fleet scenario_D reboots))
            (batch_args "hosts.csv" "pw" false) []))
  = [Some "dev1"; Some "dev2"] /\
  open_sessions
    (fst (Interruptible.main (ctrl_c_after 11 (fleet scenario_D reboots))
            (batch_args "hosts.csv" "pw" false) []))
    [] = [].
Proof.
  split; [reflexivity |]. split; [reflexivity |].
  exact (proj1 (run_leaves_no_session_open
                  (ctrl_c_after 11 (fleet scenario_D reboots))
                  (batch_args "hosts.csv" "pw" false)
                  (batch_cli "hosts.csv" (Some "pw") false) []) []).
Defined.

